(** * Shallow embedding of the AI-Benchmark-Metadata scrapers

    The development follows the Python sources:
    - [src/paperswithcode_scraper.py]: the crawl over areas, subtasks, tasks
      and datasets, the progress ledger and the page store;
    - [src/huggingface_dataset_scraper.py]: the Hugging Face page store;
    - [src/huggingface_html_2_csv.py] and [src/paperswithcode_html_2_csv.py]:
      the field extractors and the tabular writers.

    Python strings are modelled as [String.string] over ASCII characters
    (the character predicates below follow Python on them; text outside
    this alphabet, such as non-ASCII digits, is not represented);
    Python dictionaries as association lists with Python's insertion-order
    semantics; the network and the file system as explicit state. *)

From Stdlib Require Import Bool Arith Lia List String Ascii ZArith.
From Stdlib Require Import Sorting.Sorted Sorting.Permutation.
Import ListNotations.
Open Scope string_scope.
Open Scope bool_scope.

(* ------------------------------------------------------------------ *)
(** ** Python string primitives *)

Module PyStr.

Definition ascii_eqb (a b : ascii) : bool := Ascii.eqb a b.

Definition in_range (lo hi : nat) (c : ascii) : bool :=
  Nat.leb lo (nat_of_ascii c) && Nat.leb (nat_of_ascii c) hi.

(** [\w] restricted to ASCII: letters, digits and underscore. *)
Definition is_word_char (c : ascii) : bool :=
  in_range 97 122 c || in_range 65 90 c || in_range 48 57 c
  || ascii_eqb c "_"%char.

Definition is_digit (c : ascii) : bool := in_range 48 57 c.

(** [\s], [str.isspace()] and the characters [str.strip()] removes: space,
    \t, \n, \v, \f, \r and the separators \x1c to \x1f, and among the
    characters 128 to 255 read as code points, \x85 and \xa0. *)
Definition is_space (c : ascii) : bool :=
  ascii_eqb c " "%char || in_range 9 13 c || in_range 28 31 c
  || Nat.eqb (nat_of_ascii c) 133 || Nat.eqb (nat_of_ascii c) 160.

Definition lower_char (c : ascii) : ascii :=
  if in_range 65 90 c then ascii_of_nat (nat_of_ascii c + 32) else c.

Definition upper_char (c : ascii) : ascii :=
  if in_range 97 122 c then ascii_of_nat (nat_of_ascii c - 32) else c.

Definition is_alpha (c : ascii) : bool := in_range 97 122 c || in_range 65 90 c.

(** [s.lower()] *)
Fixpoint lower (s : string) : string :=
  match s with
  | EmptyString => EmptyString
  | String c s' => String (lower_char c) (lower s')
  end.

(** [s.startswith(p)] *)
Fixpoint startswith (p s : string) : bool :=
  match p, s with
  | EmptyString, _ => true
  | String a p', String b s' => ascii_eqb a b && startswith p' s'
  | String _ _, EmptyString => false
  end.

(** [p in s] for two strings (substring test). *)
Fixpoint contains (p s : string) : bool :=
  startswith p s ||
  match s with
  | EmptyString => false
  | String _ s' => contains p s'
  end.

(** [s.endswith(p)] *)
Definition endswith (p s : string) : bool :=
  Nat.leb (String.length p) (String.length s)
  && String.eqb (substring (String.length s - String.length p)
                           (String.length p) s) p.

(** [s[:n]] *)
Definition slice_to (n : nat) (s : string) : string := substring 0 n s.

(** [s[n:]] *)
Fixpoint drop (n : nat) (s : string) : string :=
  match n, s with
  | O, _ => s
  | S _, EmptyString => EmptyString
  | S n', String _ s' => drop n' s'
  end.

(** [s.lstrip()] *)
Fixpoint lstrip (s : string) : string :=
  match s with
  | EmptyString => EmptyString
  | String c s' => if is_space c then lstrip s' else s
  end.

Fixpoint rev_str (s : string) (acc : string) : string :=
  match s with
  | EmptyString => acc
  | String c s' => rev_str s' (String c acc)
  end.

(** [s.rstrip()] and [s.strip()] *)
Definition rstrip (s : string) : string :=
  rev_str (lstrip (rev_str s EmptyString)) EmptyString.

Definition strip (s : string) : string := rstrip (lstrip s).

(** [s.replace(p, r)] for a non-empty pattern [p]: non-overlapping
    occurrences, scanned from the left.  The [fuel] bounds the number of
    characters still to scan; [py_replace] starts it at [length s]. *)
Fixpoint replace_go (fuel : nat) (p r s : string) : string :=
  match fuel with
  | O => s
  | S f =>
    match s with
    | EmptyString => EmptyString
    | String c s' =>
      if startswith p s then r ++ replace_go f p r (drop (String.length p) s)
      else String c (replace_go f p r s')
    end
  end.

Definition py_replace (p r s : string) : string :=
  replace_go (String.length s) p r s.

(** [s.replace(',', '')] *)
Fixpoint remove_char (a : ascii) (s : string) : string :=
  match s with
  | EmptyString => EmptyString
  | String c s' => if ascii_eqb c a then remove_char a s' else String c (remove_char a s')
  end.

(** [re.sub(r'\s+', ' ', s)] *)
Fixpoint collapse_ws_go (prev_space : bool) (s : string) : string :=
  match s with
  | EmptyString => EmptyString
  | String c s' =>
    if is_space c then
      (if prev_space then collapse_ws_go true s'
       else String " "%char (collapse_ws_go true s'))
    else String c (collapse_ws_go false s')
  end.

Definition collapse_ws (s : string) : string := collapse_ws_go false s.

(** [any(term in s for term in terms)] *)
Definition any_in (terms : list string) (s : string) : bool :=
  existsb (fun t => contains t s) terms.

End PyStr.

(* ------------------------------------------------------------------ *)
(** ** Page Store paths ([save_dataset_page], paperswithcode_scraper.py) *)

Module PageStorePath.
Import PyStr.

(** The character class [[\w\-\.]]. *)
Definition allowed_char (c : ascii) : bool :=
  is_word_char c || ascii_eqb c "-"%char || ascii_eqb c "."%char.

(** [re.sub(r'[^\w\-\.]', '_', s)] *)
Fixpoint sub_unsafe (s : string) : string :=
  match s with
  | EmptyString => EmptyString
  | String c s' =>
    String (if allowed_char c then c else "_"%char) (sub_unsafe s')
  end.

(** [re.sub(r'[^\w\-\.]', '_', s)[:n]] *)
Definition sanitize (n : nat) (s : string) : string := slice_to n (sub_unsafe s).

Definition OUTPUT_DIR := "paperswithcode".

(** The path components derived by [save_dataset_page] from the hierarchy
    names: the directory components after [OUTPUT_DIR], and the file stem. *)
Definition dir_components (area subtask task : string) : list string :=
  let area_name := sanitize 30 area in
  let subtask_name := sanitize 30 subtask in
  let task_name := sanitize 30 task in
  if String.eqb subtask_name task_name then [area_name; task_name]
  else [area_name; subtask_name; task_name].

Definition file_stem (name : string) : string := sanitize 50 name.

Definition join (parts : list string) : string :=
  match parts with
  | [] => ""
  | p :: ps => fold_left (fun acc q => acc ++ "/" ++ q) ps p
  end.

(** [os.path.join(dir_path, f"{dataset_name}.html")] *)
Definition file_path (name area subtask task : string) : string :=
  join (OUTPUT_DIR :: dir_components area subtask task ++ [file_stem name ++ ".html"]).

(** Every character of a string satisfies [f]. *)
Fixpoint all_chars (f : ascii -> bool) (s : string) : bool :=
  match s with
  | EmptyString => true
  | String c s' => f c && all_chars f s'
  end.

End PageStorePath.

(* ------------------------------------------------------------------ *)
(** ** Python dictionaries with string keys

    A dict is an association list in insertion order.  Assigning an
    existing key replaces its value in place (the key keeps its position);
    assigning a new key appends it at the end. *)

Module PyDict.

Definition dict (V : Type) := list (string * V).

Fixpoint get {V} (d : dict V) (k : string) : option V :=
  match d with
  | [] => None
  | (k', v) :: d' => if String.eqb k k' then Some v else get d' k
  end.

(** [d[k] = v] *)
Fixpoint set {V} (d : dict V) (k : string) (v : V) : dict V :=
  match d with
  | [] => [(k, v)]
  | (k', v') :: d' =>
    if String.eqb k k' then (k', v) :: d' else (k', v') :: set d' k v
  end.

(** [k in d] *)
Definition mem {V} (k : string) (d : dict V) : bool :=
  existsb (fun kv => String.eqb k (fst kv)) d.

(** [d.get(k, default)] *)
Definition get_default {V} (d : dict V) (k : string) (default : V) : V :=
  match get d k with Some v => v | None => default end.

Definition keys {V} (d : dict V) : list string := map fst d.

(** [list(d.values())] *)
Definition values {V} (d : dict V) : list V := map snd d.

End PyDict.

(** List helpers used to state properties of the dict-based loops. *)
Module ListUtil.

Definition str_mem (x : string) (l : list string) : bool := existsb (String.eqb x) l.

(** Keep the first occurrence of every element, in order. *)
Fixpoint dedup_go (seen : list string) (l : list string) : list string :=
  match l with
  | [] => []
  | x :: l' => if str_mem x seen then dedup_go seen l' else x :: dedup_go (x :: seen) l'
  end.

Definition dedup (l : list string) : list string := dedup_go [] l.

Fixpoint filter_map {A B} (f : A -> option B) (l : list A) : list B :=
  match l with
  | [] => []
  | x :: l' => match f x with Some y => y :: filter_map f l' | None => filter_map f l' end
  end.

(** The value of the last pair with key [k]. *)
Fixpoint last_with {V} (k : string) (l : list (string * V)) : option V :=
  match l with
  | [] => None
  | (k', v) :: l' =>
    match last_with k l' with
    | Some w => Some w
    | None => if String.eqb k k' then Some v else None
    end
  end.

(** The value of the first pair with key [k]. *)
Fixpoint first_with {V} (k : string) (l : list (string * V)) : option V :=
  match l with
  | [] => None
  | (k', v) :: l' => if String.eqb k k' then Some v else first_with k l'
  end.

End ListUtil.

(* ------------------------------------------------------------------ *)
(** ** URLs ([urljoin], [urlparse]) for the base URL of the site *)

Module Url.
Import PyStr.

Definition BASE_URL := "https://paperswithcode.com".

(** [urljoin(BASE_URL, href)] for the base [BASE_URL], which has no path:
    absolute references are kept, network-path references take the
    scheme, absolute-path references are appended to the host, and
    relative ones get a separating slash.  Dot segments are not removed. *)
Definition urljoin_base (href : string) : string :=
  if startswith "http://" href || startswith "https://" href then href
  else if startswith "//" href then "https:" ++ href
  else if startswith "/" href || startswith "?" href || startswith "#" href
  then BASE_URL ++ href
  else if String.eqb href "" then BASE_URL
  else BASE_URL ++ "/" ++ href.

(** Characters up to the first one satisfying [stop]. *)
Fixpoint take_until (stop : ascii -> bool) (s : string) : string :=
  match s with
  | EmptyString => EmptyString
  | String c s' => if stop c then EmptyString else String c (take_until stop s')
  end.

Fixpoint drop_until (stop : ascii -> bool) (s : string) : string :=
  match s with
  | EmptyString => EmptyString
  | String c s' => if stop c then s else drop_until stop s'
  end.

Definition is_query_or_frag (c : ascii) : bool :=
  ascii_eqb c "?"%char || ascii_eqb c "#"%char.

(** [urlparse(url).path] for http(s) URLs and for scheme-less references. *)
Definition url_path (url : string) : string :=
  let rest :=
    if startswith "https://" url then
      drop_until (fun c => ascii_eqb c "/"%char || is_query_or_frag c) (drop 8 url)
    else if startswith "http://" url then
      drop_until (fun c => ascii_eqb c "/"%char || is_query_or_frag c) (drop 7 url)
    else url in
  take_until is_query_or_frag rest.

(** [s.strip('/')] *)
Fixpoint lstrip_char (a : ascii) (s : string) : string :=
  match s with
  | EmptyString => EmptyString
  | String c s' => if ascii_eqb c a then lstrip_char a s' else s
  end.

Definition strip_char (a : ascii) (s : string) : string :=
  rev_str (lstrip_char a (rev_str (lstrip_char a s) EmptyString)) EmptyString.

(** [s.split('/')] *)
Fixpoint split_on (a : ascii) (s : string) : list string :=
  match s with
  | EmptyString => [EmptyString]
  | String c s' =>
    if ascii_eqb c a then EmptyString :: split_on a s'
    else match split_on a s' with
         | [] => [String c EmptyString]
         | w :: ws => String c w :: ws
         end
  end.

(** [s.title()] on ASCII: a letter is upper-cased when it follows a
    non-letter and lower-cased when it follows a letter. *)
Fixpoint title_go (prev_cased : bool) (s : string) : string :=
  match s with
  | EmptyString => EmptyString
  | String c s' =>
    if is_alpha c then
      String (if prev_cased then lower_char c else upper_char c) (title_go true s')
    else String c (title_go false s')
  end.

Definition title (s : string) : string := title_go false s.

(** The name the scraper derives from a URL when a link has no text:
    [path_parts[-1].replace('-', ' ').title()] when the path has more than
    one part, and the empty name otherwise. *)
Definition name_from_url (url : string) : string :=
  let path_parts := split_on "/"%char (strip_char "/"%char (url_path url)) in
  if Nat.ltb 1 (List.length path_parts)
  then title (py_replace "-" " " (last path_parts ""))
  else "".

End Url.

(* ------------------------------------------------------------------ *)
(** ** Crawl Frontier (paperswithcode_scraper.py)

    A parsed page is represented by the results of the CSS queries the
    extraction functions run on it.  A link is an [<a>] element: its
    [href] attribute and its text as [link.get_text(strip=True)]. *)

Module Frontier.
Import PyStr Url.

Record link := mk_link { href : string; text : string }.

Record area_node := mk_area { a_name : string; a_url : string }.
Record subtask_node := mk_subtask { st_name : string; st_url : string; st_area : string }.
Record task_node :=
  mk_task { t_name : string; t_url : string; t_subtask : string; t_area : string }.
Record dataset_node :=
  mk_dataset { d_name : string; d_url : string; d_task : string;
               d_subtask : string; d_area : string; d_synthetic : bool }.

(** The name of a link: its text, or the name derived from its URL. *)
Definition link_name (url : string) (l : link) : string :=
  if String.eqb (text l) "" then name_from_url url else text l.

Definition nonempty (s : string) : bool := negb (String.eqb s "").

(** *** Areas ([extract_areas_from_sota_page]) *)

(** The SOTA page: the [h4.task-section-title] headings, each with its text
    and, when it has a parent [div], the [a[href^="/area/"]] links inside
    that div; and all [a[href^="/area/"]] links of the page. *)
Record sota_page := mk_sota {
  sections : list (string * option (list link));
  area_links : list link
}.

Definition fallback_area (slug name : string) : area_node :=
  mk_area name ("https://paperswithcode.com/area/" ++ slug).

(** The fallback used when the SOTA page cannot be downloaded (it lacks
    Computer Vision, which is commented out in the source). *)
Definition download_fallback_areas : list area_node :=
  [ fallback_area "natural-language-processing" "Natural Language Processing";
    fallback_area "medical" "Medical";
    fallback_area "methodology" "Methodology";
    fallback_area "graphs" "Graphs";
    fallback_area "audio" "Audio";
    fallback_area "reinforcement-learning" "Reinforcement Learning";
    fallback_area "time-series" "Time Series";
    fallback_area "robotics" "Robotics";
    fallback_area "playing-games" "Playing Games";
    fallback_area "reasoning" "Reasoning";
    fallback_area "adversarial" "Adversarial";
    fallback_area "speech" "Speech";
    fallback_area "generative-models" "Generative Models";
    fallback_area "multimodal" "Multimodal";
    fallback_area "recommender-systems" "Recommender Systems" ].

(** The fallback used when no area can be found on the page. *)
Definition fallback_areas : list area_node :=
  fallback_area "computer-vision" "Computer Vision" :: download_fallback_areas.

(** The area a section contributes: its first area link and its cleaned
    heading, when both are non-empty. *)
Definition area_of_section (section : string * option (list link)) : option area_node :=
  let (heading, parent_links) := section in
  match parent_links with
  | Some (first :: _) =>
    let area_url := urljoin_base (href first) in
    let area_name := strip (collapse_ws heading) in
    if nonempty area_url && nonempty area_name
    then Some (mk_area area_name area_url) else None
  | _ => None
  end.

(** The area a direct link contributes. *)
Definition area_of_link (l : link) : option area_node :=
  let area_url := urljoin_base (href l) in
  let area_name := strip (collapse_ws (link_name area_url l)) in
  if nonempty area_url && nonempty area_name
  then Some (mk_area area_name area_url) else None.

(** [unique[node['url']] = node] when the iteration produced a node. *)
Definition add_node {V} (url_of : V -> string) (d : PyDict.dict V) (o : option V)
    : PyDict.dict V :=
  match o with
  | Some n => PyDict.set d (url_of n) n
  | None => d
  end.

(** One iteration of the loop over the [h4] sections. *)
Definition area_section_step (unique_areas : PyDict.dict area_node)
    (section : string * option (list link)) : PyDict.dict area_node :=
  add_node a_url unique_areas (area_of_section section).

(** One iteration of the loop over the direct area links. *)
Definition area_link_step (unique_areas : PyDict.dict area_node) (l : link)
    : PyDict.dict area_node :=
  add_node a_url unique_areas (area_of_link l).

(** [extract_areas_from_sota_page]; [None] is a failed download. *)
Definition extract_areas_from_sota_page (page : option sota_page) : list area_node :=
  match page with
  | None => download_fallback_areas
  | Some p =>
    match sections p, area_links p with
    | [], [] => fallback_areas
    | _, _ =>
      let unique_areas := fold_left area_section_step (sections p) [] in
      let unique_areas :=
        match unique_areas with
        | [] => fold_left area_link_step (area_links p) []
        | _ => unique_areas
        end in
      match PyDict.values unique_areas with
      | [] => fallback_areas
      | areas => areas
      end
    end
  end.

(** *** Subtasks ([extract_subtasks_from_area_page]) *)

(** An area page: the [a[href^="/task/"]] links inside [div.sota-all-tasks]
    when that div exists, all [a[href^="/task/"]] links of the page, and the
    [a] links of every [div.card]. *)
Record area_page := mk_area_page {
  sota_all_tasks : option (list link);
  task_links : list link;
  cards : list (list link)
}.

(** The three approaches tried in order. *)
Definition subtask_links (p : area_page) : list link :=
  let l1 := match sota_all_tasks p with Some ls => ls | None => [] end in
  match l1 with
  | _ :: _ => l1
  | [] =>
    match task_links p with
    | _ :: _ => task_links p
    | [] => filter (fun l => startswith "/task/" (href l)) (List.concat (cards p))
    end
  end.

(** The subtask a link contributes. *)
Definition subtask_of_link (area : area_node) (l : link) : option subtask_node :=
  let subtask_url := urljoin_base (href l) in
  let subtask_name := strip (collapse_ws (link_name subtask_url l)) in
  if nonempty subtask_url && nonempty subtask_name
  then Some (mk_subtask subtask_name subtask_url (a_name area)) else None.

(** One iteration of the de-duplicating loop. *)
Definition subtask_step (area : area_node) (unique_subtasks : PyDict.dict subtask_node)
    (l : link) : PyDict.dict subtask_node :=
  add_node st_url unique_subtasks (subtask_of_link area l).

Definition extract_subtasks_from_area_page (area : area_node) (p : area_page)
    : list subtask_node :=
  match subtask_links p with
  | [] => []
  | links => PyDict.values (fold_left (subtask_step area) links [])
  end.


(** *** Datasets ([extract_datasets_from_task_page]) *)

(** A task page: when an [h2#datasets] heading exists, the
    [a[href^="/dataset/"]] links of each sibling after it up to the next
    [h2]; all [a[href^="/dataset/"]] links of the page; and the [a] links of
    every [div.dataset-card]. *)
Record task_page := mk_task_page {
  datasets_heading : option (list (list link));
  dataset_links : list link;
  dataset_cards : list (list link)
}.

(** The dataset node built from one link, if it has a URL and a name. *)
Definition dataset_of_link (task : task_node) (l : link) : option dataset_node :=
  let dataset_url := urljoin_base (href l) in
  let dataset_name := link_name dataset_url l in
  if nonempty dataset_url && nonempty dataset_name
  then Some (mk_dataset dataset_name dataset_url (t_name task) (t_subtask task)
                        (t_area task) false)
  else None.

Fixpoint collect (task : task_node) (links : list link) : list dataset_node :=
  match links with
  | [] => []
  | l :: ls =>
    match dataset_of_link task l with
    | Some d => d :: collect task ls
    | None => collect task ls
    end
  end.

(** Approach 4 and the not-found case: one synthetic dataset named after
    the task, at the task URL with [/task/] replaced by [/dataset/], only
    if that replacement changed the URL. *)
Definition synthetic_dataset (task : task_node) : list dataset_node :=
  let dataset_name := t_name task ++ " Dataset" in
  let dataset_url := py_replace "/task/" "/dataset/" (t_url task) in
  if negb (String.eqb dataset_url (t_url task))
  then [mk_dataset dataset_name dataset_url (t_name task) (t_subtask task)
                   (t_area task) true]
  else [].

Definition extract_datasets_from_task_page (task : task_node) (page : option task_page)
    : list dataset_node :=
  match page with
  | None => synthetic_dataset task
  | Some p =>
    let from_heading :=
      match datasets_heading p with
      | Some siblings => collect task (List.concat siblings)
      | None => []
      end in
    match from_heading with
    | _ :: _ => from_heading
    | [] =>
      match collect task (dataset_links p) with
      | (_ :: _) as ds => ds
      | [] =>
        let card_links :=
          filter (fun l => contains "/dataset/" (href l)) (List.concat (dataset_cards p)) in
        match collect task card_links with
        | (_ :: _) as ds => ds
        | [] => synthetic_dataset task
        end
      end
    end
  end.

End Frontier.





(* ------------------------------------------------------------------ *)
(** ** Python values and the progress ledger ([load_progress]) *)

Module Progress.
Import PyStr.

(** The Python values [json.load] can produce. *)
#[warnings="-register-all"]
Inductive pyval :=
| PNone
| PBool (b : bool)
| PNum (z : Z)
| PStr (s : string)
| PList (l : list pyval)
| PDict (d : list (string * pyval)).

(** Python code that may raise. *)
Inductive result (A : Type) :=
| Ok (a : A)
| Raise (exn : string).
Arguments Ok {A} a.
Arguments Raise {A} exn.

Definition bind {A B} (m : result A) (f : A -> result B) : result B :=
  match m with Ok a => f a | Raise e => Raise e end.

Notation "x <- m ;; k" := (bind m (fun x => k)) (at level 61, m at next level, right associativity).

(** [x == k] for a string [k]: only a string with the same characters is equal. *)
Definition eq_str (k : string) (x : pyval) : bool :=
  match x with PStr s => String.eqb s k | _ => false end.

(** [k in v] for a string [k]: key membership for a dict, element membership
    for a list, substring test for a string, [TypeError] otherwise. *)
Definition py_in (k : string) (v : pyval) : result bool :=
  match v with
  | PDict d => Ok (PyDict.mem k d)
  | PList l => Ok (existsb (eq_str k) l)
  | PStr s => Ok (contains k s)
  | _ => Raise "TypeError"
  end.

(** [v[k] = x] for a string [k]: only a dict supports it; a list needs an
    integer index and the other values do not support item assignment. *)
Definition py_setitem (v : pyval) (k : string) (x : pyval) : result pyval :=
  match v with
  | PDict d => Ok (PDict (PyDict.set d k x))
  | _ => Raise "TypeError"
  end.

(** The state of [PROGRESS_FILE] as seen by [load_progress]. *)
Inductive progress_file :=
| Absent                   (* [os.path.exists] is false *)
| Unreadable               (* [open] raises *)
| Malformed                (* [json.load] raises *)
| Parsed (v : pyval).      (* [json.load] returns [v] *)

Definition LEDGER_KEYS : list string :=
  ["processed_areas"; "processed_subtasks"; "processed_tasks";
   "processed_datasets"; "downloaded_datasets"].

Definition fresh_progress : pyval :=
  PDict (map (fun k => (k, PList [])) LEDGER_KEYS).

(** [if k not in progress: progress[k] = []] *)
Definition ensure_key (progress : pyval) (k : string) : result pyval :=
  present <- py_in k progress ;;
  if negb present then py_setitem progress k (PList []) else Ok progress.

(** The body of the [try] block after [json.load]. *)
Definition ensure_keys (progress : pyval) : result pyval :=
  p1 <- ensure_key progress "processed_areas" ;;
  p2 <- ensure_key p1 "processed_subtasks" ;;
  p3 <- ensure_key p2 "processed_tasks" ;;
  p4 <- ensure_key p3 "processed_datasets" ;;
  ensure_key p4 "downloaded_datasets".

(** [load_progress]: every exception of the [try] block is caught and the
    function falls through to the fresh ledger. *)
Definition load_progress (f : progress_file) : pyval :=
  match f with
  | Absent => fresh_progress
  | Unreadable | Malformed => fresh_progress
  | Parsed v =>
    match ensure_keys v with
    | Ok progress => progress
    | Raise _ => fresh_progress
    end
  end.

End Progress.

(* ------------------------------------------------------------------ *)
(** ** Tabular Writers *)

Module Tabular.

(** [BENCHMARK_FIELDS] of huggingface_html_2_csv.py. *)
Definition BENCHMARK_FIELDS : list string :=
  ["benchmark_name"; "modality"; "task_type"; "domain"; "output_type";
   "evaluation_metrics"; "paper_link"; "dataset_link"; "languages";
   "dataset_size"; "num_train_examples"; "num_val_examples";
   "num_test_examples"; "sota_performance"; "sota_model"; "license_details";
   "last_updated"; "citation_count"; "downloads"; "example_code_link";
   "similar_benchmarks"; "data_format"; "preprocessing_notes";
   "ethical_considerations"; "model_architectures"; "hardware_requirements";
   "training_time"].

Definition record := PyDict.dict string.

(** [csv.DictWriter(f, fieldnames).writerow(rowdict)] with the default
    [restval=''] and [extrasaction='raise']: a key outside the field names
    raises [ValueError]; otherwise the cells follow the field names. *)
Definition dict_writer_row (fieldnames : list string) (rowdict : record)
    : Progress.result (list string) :=
  if forallb (fun k => ListUtil.str_mem k fieldnames) (PyDict.keys rowdict)
  then Progress.Ok (map (fun f => PyDict.get_default rowdict f "") fieldnames)
  else Progress.Raise "ValueError".

(** [{field: item.get(field, '') for field in BENCHMARK_FIELDS}] *)
Definition filtered_item (item : record) : record :=
  map (fun f => (f, PyDict.get_default item f "")) BENCHMARK_FIELDS.

Fixpoint write_rows (fieldnames : list string) (data : list record)
    : Progress.result (list (list string)) :=
  match data with
  | [] => Progress.Ok []
  | item :: data' =>
    Progress.bind (dict_writer_row fieldnames (filtered_item item)) (fun row =>
    Progress.bind (write_rows fieldnames data') (fun rows =>
    Progress.Ok (row :: rows)))
  end.

(** [save_to_csv] of huggingface_html_2_csv.py: the header, then one row
    per item. *)
Definition save_to_csv (data : list record) : Progress.result (list (list string)) :=
  Progress.bind (write_rows BENCHMARK_FIELDS data) (fun rows =>
  Progress.Ok (BENCHMARK_FIELDS :: rows)).

(** The header written by [setup_csv_file] of paperswithcode_html_2_csv.py. *)
Definition PWC_HEADERS : list string :=
  ["dataset_id"; "dataset_name"; "description"; "homepage_url"; "license";
   "modalities"; "languages"; "year_published"; "paper_title"; "paper_url";
   "dataset_size"; "dataset_splits"; "num_classes"; "associated_tasks";
   "benchmark_urls"; "pwc_url"; "area"; "subtask"; "task"].

(** The values [process_html_file] computes for one page. *)
Record pwc_info := mk_pwc_info {
  dataset_id : string; dataset_name : string; description : string;
  homepage_url : string; license : string; modalities : string;
  languages : string; year_published : string; paper_title : string;
  paper_url : string; dataset_size : string; dataset_splits : string;
  num_classes : string; associated_tasks : string; benchmark_urls : string;
  pwc_url : string
}.

(** The [dataset_info] dict literal of [process_html_file]. *)
Definition dataset_info_dict (i : pwc_info) : record :=
  [("dataset_id", dataset_id i); ("dataset_name", dataset_name i);
   ("description", description i); ("homepage_url", homepage_url i);
   ("license", license i); ("modalities", modalities i);
   ("languages", languages i); ("year_published", year_published i);
   ("paper_title", paper_title i); ("paper_url", paper_url i);
   ("dataset_size", dataset_size i); ("dataset_splits", dataset_splits i);
   ("num_classes", num_classes i); ("associated_tasks", associated_tasks i);
   ("benchmark_urls", benchmark_urls i); ("pwc_url", pwc_url i)].

(** The row [extract_datasets] appends for one extracted page: it sets
    [area], [subtask] and [task] on the dict, then writes it with a
    [DictWriter] whose field names are the dict's own keys. *)
Definition pwc_row (i : pwc_info) (area subtask task : string)
    : Progress.result (list string) :=
  let d := PyDict.set (PyDict.set (PyDict.set (dataset_info_dict i) "area" area)
                                  "subtask" subtask) "task" task in
  dict_writer_row (PyDict.keys d) d.

End Tabular.



(* ------------------------------------------------------------------ *)
(** ** Page Store ([save_dataset_page], [download_dataset_page])

    The file system maps paths to file contents.  Writes are taken to
    succeed.  The network is an oracle passed to each call, so two calls
    can see different remote content. *)

Module PageStore.
Import PyStr Frontier.
Local Open Scope list_scope.

Definition fs := PyDict.dict string.

Definition exists_path (p : string) (f : fs) : bool := PyDict.mem p f.

(** A double quote character. *)
Definition dq : string := String (Ascii.ascii_of_nat 34) EmptyString.

Definition meta_tag (name content : string) : string :=
  "<meta name=" ++ dq ++ name ++ dq ++ " content=" ++ dq ++ content ++ dq ++ ">".

(** The placeholder page written for a synthetic dataset (layout
    whitespace omitted). *)
Definition placeholder_html (d : dataset_node) : string :=
  "<!DOCTYPE html><html><head><title>" ++ d_name d ++ "</title>"
  ++ meta_tag "dataset" (d_name d) ++ meta_tag "task" (d_task d)
  ++ meta_tag "subtask" (d_subtask d) ++ meta_tag "area" (d_area d)
  ++ meta_tag "url" (d_url d) ++ meta_tag "synthetic" "true"
  ++ "</head><body><h1>" ++ d_name d ++ "</h1>"
  ++ "<p>This is a synthetic dataset created by the Papers With Code scraper.</p>"
  ++ "<p>Task: " ++ d_task d ++ "</p><p>Subtask: " ++ d_subtask d
  ++ "</p><p>Area: " ++ d_area d ++ "</p><p>URL: <a href=" ++ dq ++ d_url d ++ dq ++ ">"
  ++ d_url d ++ "</a></p></body></html>".

(** [save_dataset_page(dataset)] of paperswithcode_scraper.py, given the
    result of [download_page] for each URL ([None] for a 404 or a request
    error).  Returns the success flag, the new file system and the URLs
    fetched over the network. *)
Definition save_dataset_page (download_page : string -> option string)
    (dataset : dataset_node) (f : fs) : bool * fs * list string :=
  let path := PageStorePath.file_path (d_name dataset) (d_area dataset)
                                      (d_subtask dataset) (d_task dataset) in
  if exists_path path f then (true, f, [])
  else if d_synthetic dataset then (true, PyDict.set f path (placeholder_html dataset), [])
  else
    match download_page (d_url dataset) with
    | None => (false, f, [d_url dataset])
    | Some html =>
      if String.eqb html "" then (false, f, [d_url dataset])
      else (true, PyDict.set f path html, [d_url dataset])
    end.

(** One [requests.get] of huggingface_dataset_scraper.py: a response with
    its status code and text, or an exception. *)
Inductive attempt := Response (status : Z) (text : string) | Failure.

Definition MAX_RETRIES := 3.
Definition DATASETS_DIR := "huggingface".

Definition hf_file_path (dataset_name : string) : string :=
  DATASETS_DIR ++ "/huggingface_" ++ dataset_name ++ ".html".

(** The retry loop [for attempt in range(MAX_RETRIES)]; [get i] is the
    outcome of attempt [i]. *)
Fixpoint retry_loop (get : nat -> attempt) (dataset_url path : string)
    (i fuel : nat) (f : fs) : bool * fs * list string :=
  match fuel with
  | O => (false, f, [])
  | S fuel' =>
    let retry :=
      let '(ok, f', fetched) := retry_loop get dataset_url path (S i) fuel' f in
      (ok, f', dataset_url :: fetched) in
    match get i with
    | Response status text =>
      if Z.eqb status 200 then (true, PyDict.set f path text, [dataset_url]) else retry
    | Failure => retry
    end
  end.

(** [download_dataset_page((dataset_name, dataset_url))]. *)
Definition download_dataset_page (get : nat -> attempt)
    (dataset : string * string) (f : fs) : bool * fs * list string :=
  let (dataset_name, dataset_url) := dataset in
  let path := hf_file_path dataset_name in
  if exists_path path f then (true, f, [])
  else retry_loop get dataset_url path 0 MAX_RETRIES f.

End PageStore.

(* ------------------------------------------------------------------ *)
(** ** The crawl loop ([scrape_paperswithcode]) *)

Module Crawl.
Import ListUtil Frontier.
Local Open Scope list_scope.

Record ledger := mk_ledger {
  processed_areas : list string;
  processed_subtasks : list string;
  processed_tasks : list string;
  processed_datasets : list string;
  downloaded_datasets : list string
}.

Inductive level := LArea | LSubtask | LTask | LDataset.




(** The state threaded through the loop: the ledger, the page store, and
    the network fetches performed, each tagged with the level that made it. *)
Record state := mk_state {
  progress : ledger;
  files : PageStore.fs;
  fetches : list (level * string)
}.

Definition fetch (lv : level) (u : string) (st : state) : state :=
  mk_state (progress st) (files st) (fetches st ++ [(lv, u)]).



Section Loop.
(** [download_page(url)] for every URL of the run. *)
Variable download_page : string -> option string.
(** The areas [extract_areas_from_sota_page] returns. *)
Variable areas : list area_node.
(** [extract_subtasks_from_area_page] and [extract_datasets_from_task_page]
    on the downloaded HTML. *)
Variable subtasks_of : area_node -> string -> list subtask_node.
Variable datasets_of : task_node -> string -> list dataset_node.






End Loop.

End Crawl.





(* ------------------------------------------------------------------ *)
(** ** Extraction under exceptions

    The body of an extractor's [try] block is taken as the sequence of
    statements it runs on one page: an assignment of a string to a field
    (of the record dict for [extract_dataset_info], of a local variable for
    [process_html_file]) or a statement that raises. *)

Module Extraction.
Import PyStr.
Local Open Scope list_scope.

Inductive stmt := Assign (field value : string) | RaiseExc.

(** Run a body against a dict that is mutated in place: the dict as it
    stands when the body ends or raises, and whether it raised. *)
Fixpoint exec (body : list stmt) (d : PyDict.dict string) : PyDict.dict string * bool :=
  match body with
  | [] => (d, false)
  | Assign k v :: body' => exec body' (PyDict.set d k v)
  | RaiseExc :: _ => (d, true)
  end.

(** [dataset_data] before the [try] of [extract_dataset_info]. *)
Definition initial_data (dataset_name : string) : PyDict.dict string :=
  PyDict.set (PyDict.set (map (fun f => (f, "")) Tabular.BENCHMARK_FIELDS)
                         "benchmark_name" dataset_name)
             "dataset_link" ("https://huggingface.co/datasets/" ++ dataset_name)%string.

(** [extract_dataset_info(dataset_name, html_content)] of
    huggingface_html_2_csv.py; the [except Exception] logs and falls
    through to [return dataset_data]. *)
Definition extract_dataset_info (dataset_name html_content : string) (body : list stmt)
    : PyDict.dict string :=
  let dataset_data := initial_data dataset_name in
  if String.eqb html_content "" then dataset_data
  else fst (exec body dataset_data).






Definition PWC_AREAS : list string :=
  ["Computer Vision"; "Natural Language Processing"; "Medical"; "Methodology";
   "Graphs"; "Audio"; "Reinforcement Learning"; "Time Series"; "Robotics";
   "Playing Games"; "Reasoning"; "Adversarial"; "Speech"; "Generative Models";
   "Multimodal"; "Recommender Systems"].

(** The area, subtask and task [extract_datasets] derives from a record. *)
Definition derive_placement (i : Tabular.pwc_info) : string * string * string :=
  let associated_tasks := Tabular.associated_tasks i in
  if String.eqb associated_tasks "" then ("", "", "")
  else
    let main_task := strip (hd "" (Url.split_on ","%char associated_tasks)) in
    let area := match List.find
                        (fun a => contains (lower a) (lower main_task)) PWC_AREAS with
                | Some a => a | None => "" end in
    let mods := Tabular.modalities i in
    let area :=
      if negb (String.eqb area "") then area
      else if contains "Image" mods then "Computer Vision"
      else if contains "Text" mods then "Natural Language Processing"
      else if contains "Audio" mods then "Audio"
      else "Methodology" in
    (area, main_task, main_task).


End Extraction.



(* ------------------------------------------------------------------ *)
(** ** Canonical source URL ([extract_pwc_url]) *)

Module PwcUrl.
Import PyStr.

(** The parts of a parsed page [extract_pwc_url] reads. *)
Record link_tag := mk_link_tag { rel : list string; href : option string }.

Record page := mk_page {
  metas : list (PyDict.dict string);        (* attributes of each [<meta>] *)
  link_tags : list link_tag;                (* every [<link>] *)
  breadcrumb_hrefs : list (option string);  (* [ol.breadcrumb li a] *)
  anchor_hrefs : list (option string);      (* every [<a>] *)
  title : option string                     (* [soup.title.string] *)
}.

Definition truthy (o : option string) : bool :=
  match o with Some s => negb (String.eqb s "") | None => false end.

Definition opt_eqb (o : option string) (s : string) : bool :=
  match o with Some t => String.eqb t s | None => false end.

(** [for meta in soup.find_all('meta'): if meta.get('property') == 'og:url'
    and meta.get('content'): return meta.get('content').strip()] *)
Fixpoint og_loop (ms : list (PyDict.dict string)) : option string :=
  match ms with
  | [] => None
  | m :: ms' =>
    if opt_eqb (PyDict.get m "property") "og:url" && truthy (PyDict.get m "content")
    then match PyDict.get m "content" with Some c => Some (strip c) | None => None end
    else og_loop ms'
  end.

(** [soup.find('link', rel='canonical')] *)
Definition find_canonical (ls : list link_tag) : option link_tag :=
  List.find (fun l => ListUtil.str_mem "canonical" (rel l)) ls.

Definition href_or_empty (o : option string) : string :=
  match o with Some s => s | None => "" end.

Fixpoint breadcrumb_loop (hs : list (option string)) : option string :=
  match hs with
  | [] => None
  | h :: hs' =>
    let href := href_or_empty h in
    if contains "/dataset/" href then Some ("https://paperswithcode.com" ++ href)
    else breadcrumb_loop hs'
  end.

(** [soup.select('a[href*="/dataset/"]')] *)
Definition dataset_anchors (hs : list (option string)) : list string :=
  ListUtil.filter_map (fun h => match h with
                                | Some s => if contains "/dataset/" s then Some s else None
                                | None => None end) hs.

Fixpoint anchor_loop (hs : list string) : option string :=
  match hs with
  | [] => None
  | href :: hs' =>
    if startswith "/" href then Some ("https://paperswithcode.com" ++ href)
    else if startswith "http" href then Some href
    else anchor_loop hs'
  end.

(** [\s+] followed by a non-space: drop a non-empty run of whitespace. *)
Definition skip_ws1 (s : string) : option string :=
  match s with
  | String c _ => if is_space c then Some (lstrip s) else None
  | EmptyString => None
  end.

(** The part of [\s+Dataset\s+\|\s+Papers With Code] after [^(.*?)]. *)
Definition title_suffix_matches (s : string) : bool :=
  match skip_ws1 s with
  | Some s1 =>
    startswith "Dataset" s1 &&
    match skip_ws1 (drop 7 s1) with
    | Some s2 =>
      startswith "|" s2 &&
      match skip_ws1 (drop 1 s2) with
      | Some s3 => startswith "Papers With Code" s3
      | None => false
      end
    | None => false
    end
  | None => false
  end.

(** [re.search(r'^(.*?)\s+Dataset\s+\|\s+Papers With Code', title)]:
    group 1 is the shortest newline-free prefix the suffix matches after. *)
Fixpoint title_group_go (prefix s : string) (fuel : nat) : option string :=
  if title_suffix_matches s then Some prefix
  else match fuel, s with
       | S fuel', String c s' =>
         if ascii_eqb c "010"%char then None
         else title_group_go (prefix ++ String c EmptyString) s' fuel'
       | _, _ => None
       end.

Definition title_group (t : string) : option string :=
  title_group_go "" t (String.length t).

(** [re.sub(r'[^\w]', '-', s)] *)
Fixpoint non_word_to_hyphen (s : string) : string :=
  match s with
  | EmptyString => EmptyString
  | String c s' => String (if is_word_char c then c else "-"%char) (non_word_to_hyphen s')
  end.

(** [re.sub(r'-+', '-', s)] *)
Fixpoint collapse_hyphens_go (prev_hyphen : bool) (s : string) : string :=
  match s with
  | EmptyString => EmptyString
  | String c s' =>
    if ascii_eqb c "-"%char
    then if prev_hyphen then collapse_hyphens_go true s'
         else String c (collapse_hyphens_go true s')
    else String c (collapse_hyphens_go false s')
  end.

Definition collapse_hyphens (s : string) : string := collapse_hyphens_go false s.

Definition title_slug_url (t : option string) : option string :=
  match t with
  | Some title =>
    if String.eqb title "" then None
    else match title_group title with
         | Some g =>
           let dataset_slug := collapse_hyphens (non_word_to_hyphen (lower (strip g))) in
           Some ("https://paperswithcode.com/dataset/" ++ dataset_slug)
         | None => None
         end
  | None => None
  end.

(** [os.path.basename] *)
Definition basename (p : string) : string := last (Url.split_on "/"%char p) "".

Definition file_slug_url (file_path : string) : option string :=
  let file_name := basename file_path in
  if endswith ".html" file_name
  then Some ("https://paperswithcode.com/dataset/"
             ++ substring 0 (String.length file_name - 5) file_name)
  else None.

(** [extract_pwc_url(soup, file_path)]: each [return] ends the function. *)
Definition extract_pwc_url (p : page) (file_path : string) : string :=
  match og_loop (metas p) with
  | Some u => u
  | None =>
    let canonical :=
      match find_canonical (link_tags p) with
      | Some l => if truthy (href l) then Some (strip (href_or_empty (href l))) else None
      | None => None
      end in
    match canonical with
    | Some u => u
    | None =>
      match breadcrumb_loop (breadcrumb_hrefs p) with
      | Some u => u
      | None =>
        match anchor_loop (dataset_anchors (anchor_hrefs p)) with
        | Some u => u
        | None =>
          match title_slug_url (title p) with
          | Some u => u
          | None =>
            match file_slug_url file_path with
            | Some u => u
            | None => ""
            end
          end
        end
      end
    end
  end.

(** The cascade as the specification lists it: the strategies in order,
    each giving a value or none, the first value winning. *)
Definition og_strategy (p : page) (_ : string) : option string := og_loop (metas p).
Definition canonical_strategy (p : page) (_ : string) : option string :=
  match find_canonical (link_tags p) with
  | Some l => if truthy (href l) then Some (strip (href_or_empty (href l))) else None
  | None => None
  end.
Definition breadcrumb_strategy (p : page) (_ : string) : option string :=
  breadcrumb_loop (breadcrumb_hrefs p).
Definition anchor_strategy (p : page) (_ : string) : option string :=
  anchor_loop (dataset_anchors (anchor_hrefs p)).
Definition title_strategy (p : page) (_ : string) : option string := title_slug_url (title p).
Definition filename_strategy (_ : page) (file_path : string) : option string :=
  file_slug_url file_path.

Definition strategies : list (page -> string -> option string) :=
  [og_strategy; canonical_strategy; breadcrumb_strategy; anchor_strategy;
   title_strategy; filename_strategy].

Fixpoint first_value (l : list (option string)) : option string :=
  match l with
  | [] => None
  | Some v :: _ => Some v
  | None :: l' => first_value l'
  end.

Definition cascade (p : page) (file_path : string) : string :=
  match first_value (map (fun s => s p file_path) strategies) with
  | Some v => v
  | None => ""
  end.

End PwcUrl.



(* ------------------------------------------------------------------ *)
(** ** Python regular expressions (the subset the extractors use)

    A backtracking matcher in continuation-passing style, trying
    alternatives in the order of Python's [re]: greedy repetition tries one
    more iteration first, lazy repetition tries to stop first.  Fuel bounds
    the nesting of calls; [search] sizes it from the pattern and the input. *)

Module Regex.
Import PyStr.

Inductive rx :=
| RChar (p : ascii -> bool)
| RSeq (r1 r2 : rx)
| RAlt (r1 r2 : rx)
| RStar (r : rx)
| RLazyStar (r : rx)
| RGroup (n : nat) (r : rx)
| REps
| RStart        (* ^ *)
| RDollar       (* $ : end, or before a final newline *)
| REndZ.        (* \Z *)

Definition captures := list (nat * (nat * nat)).

Fixpoint rx_size (r : rx) : nat :=
  match r with
  | RSeq r1 r2 | RAlt r1 r2 => S (rx_size r1 + rx_size r2)
  | RStar r1 | RLazyStar r1 | RGroup _ r1 => S (rx_size r1)
  | _ => 1
  end.

Definition newline : ascii := "010"%char.
Definition tab : ascii := "009"%char.

Fixpoint m (inp : string) (fuel : nat) (r : rx) (pos : nat) (caps : captures)
    (k : nat -> captures -> option captures) {struct fuel} : option captures :=
  match fuel with
  | O => None
  | S f =>
    match r with
    | RChar p =>
      match String.get pos inp with
      | Some c => if p c then k (S pos) caps else None
      | None => None
      end
    | RSeq r1 r2 => m inp f r1 pos caps (fun p c => m inp f r2 p c k)
    | RAlt r1 r2 =>
      match m inp f r1 pos caps k with
      | Some x => Some x
      | None => m inp f r2 pos caps k
      end
    | RStar r1 =>
      match m inp f r1 pos caps
              (fun p c => if Nat.eqb p pos then None else m inp f (RStar r1) p c k) with
      | Some x => Some x
      | None => k pos caps
      end
    | RLazyStar r1 =>
      match k pos caps with
      | Some x => Some x
      | None => m inp f r1 pos caps
                  (fun p c => if Nat.eqb p pos then None else m inp f (RLazyStar r1) p c k)
      end
    | RGroup n r1 => m inp f r1 pos caps (fun p c => k p ((n, (pos, p)) :: c))
    | REps => k pos caps
    | RStart => if Nat.eqb pos 0 then k pos caps else None
    | RDollar =>
      let n := String.length inp in
      if Nat.eqb pos n
         || (Nat.eqb (S pos) n
             && match String.get pos inp with Some c => ascii_eqb c newline | None => false end)
      then k pos caps else None
    | REndZ => if Nat.eqb pos (String.length inp) then k pos caps else None
    end
  end.

Definition match_at (inp : string) (r : rx) (pos : nat) : option captures :=
  m inp ((String.length inp + 2) * (rx_size r + 2)) r pos []
    (fun p c => Some ((0, (pos, p)) :: c)).

Fixpoint search_from (inp : string) (r : rx) (pos fuel : nat) : option captures :=
  match match_at inp r pos with
  | Some c => Some c
  | None => match fuel with O => None | S f => search_from inp r (S pos) f end
  end.

(** [re.search(r, inp)]: the captures of the first match. *)
Definition search (r : rx) (inp : string) : option captures :=
  search_from inp r 0 (String.length inp).

(** [match.group(n)] *)
Definition group (inp : string) (caps : captures) (n : nat) : string :=
  match List.find (fun x => Nat.eqb (fst x) n) caps with
  | Some (_, (a, b)) => substring a (b - a) inp
  | None => ""
  end.

(** Pattern building blocks. *)
Fixpoint seq (rs : list rx) : rx :=
  match rs with [] => REps | [r] => r | r :: rs' => RSeq r (seq rs') end.
Fixpoint alt (rs : list rx) : rx :=
  match rs with [] => REps | [r] => r | r :: rs' => RAlt r (alt rs') end.
Definition lit (c : ascii) : rx := RChar (ascii_eqb c).
(** A literal under [re.IGNORECASE]. *)
Definition ilit (c : ascii) : rx := RChar (fun d => ascii_eqb (lower_char d) (lower_char c)).
Fixpoint str_with (l : ascii -> rx) (s : string) : list rx :=
  match s with EmptyString => [] | String c s' => l c :: str_with l s' end.
Definition str (s : string) : rx := seq (str_with lit s).
Definition istr (s : string) : rx := seq (str_with ilit s).
Definition plus (r : rx) : rx := RSeq r (RStar r).
Definition opt (r : rx) : rx := RAlt r REps.
Definition ws : rx := RChar is_space.                          (* \s *)
Definition non_ws : rx := RChar (fun c => negb (is_space c)).  (* \S *)
(** [\d]: the digits 0-9, which is Python's class on every character of
    this development (its other decimal digits lie beyond U+00FF). *)
Definition digit : rx := RChar is_digit.
Definition any_dotall : rx := RChar (fun _ => true).           (* . with DOTALL *)

End Regex.

(* ------------------------------------------------------------------ *)
(** ** Name, split counts and modality of a stored page *)

Module FieldExtract.
Import PyStr Regex.

(** [Dataset Summary\s*\n\s*\n(.*?)(?:\n\s*\n\s*\n\s*\n\s*\n\s*\t\t\S|\Z)]
    with [re.DOTALL]. *)
Definition summary_re : rx :=
  seq [str "Dataset Summary"; RStar ws; lit newline; RStar ws; lit newline;
       RGroup 1 (RLazyStar any_dotall);
       RAlt (seq [lit newline; RStar ws; lit newline; RStar ws; lit newline; RStar ws;
                  lit newline; RStar ws; lit newline; RStar ws; lit tab; lit tab; non_ws])
            REndZ].

Definition units : rx :=
  alt (map istr ["examples"; "samples"; "instances"; "rows"; "records"]).

(** The digits-with-commas count [\d+] [(?:,\d+)] repeated, as group 1. *)
Definition count_group : rx := RGroup 1 (seq [plus digit; RStar (seq [lit ","; plus digit])]).

(** The split name, [\s*], an optional [set] or [split], an optional colon,
    [\s*], the count group, [\s*] and a unit word, case-insensitive. *)
Definition split_re (split : rx) : rx :=
  seq [split; RStar ws; opt (RAlt (istr "set") (istr "split")); opt (ilit ":"); RStar ws;
       count_group; RStar ws; units].

Definition train_re : rx := split_re (seq [istr "train"; opt (istr "ing")]).
Definition val_re : rx :=
  split_re (RAlt (seq [istr "val"; opt (istr "idation")]) (seq [istr "dev"; opt (istr "elopment")])).
Definition test_re : rx := split_re (seq [istr "test"; opt (istr "ing")]).
Definition examples_re : rx :=
  seq [opt (alt [istr "total"; istr "contains"; istr "consists of"]); RStar ws;
       count_group; RStar ws; units].

(** The modality chain on a summary text. *)
Definition modality_of (summary_text : string) : string :=
  let t := lower summary_text in
  if any_in ["image"; "visual"; "picture"] t then
    if any_in ["text"; "language"] t then "Image-Text" else "Image"
  else if any_in ["video"; "motion"] t then "Video"
  else if any_in ["audio"; "sound"; "speech"] t then "Audio"
  else if any_in ["text"; "language"; "nlp"] t then "Text"
  else "Text".

(** The [description] entry of the JSON-LD data: a string, or another
    JSON value, on which [re.search] raises [TypeError]. *)
Inductive ld_value := LdString (s : string) | LdOther.

(** The JSON-LD data of a page whose script parses: its [description]
    entry, if it has one, and whether the statements after the summary
    block raise (the [keywords] loop raises on a keyword that is not a
    string or on a [keywords] value that cannot be iterated).  A parsed
    value that is not an object has no description: [in] and the lookups
    on it either find no key or raise. *)
Record json_ld := mk_json_ld {
  ld_description : option ld_value;
  ld_rest_raises : bool
}.

(** A stored, non-empty Hugging Face page: its title and meta description,
    its JSON-LD data ([None] when there is no script, an empty one, or one
    [json.loads] rejects with [JSONDecodeError]), and, when the page has a
    text containing "Dataset Summary" inside a parent element, the stripped
    text of that parent's next sibling ([""] when it has none). *)
Record hf_page := mk_hf_page {
  hf_title : string;
  hf_meta_description : string;
  json_ld_data : option json_ld;
  summary_heading_sibling : option string
}.

Definition count_of (r : rx) (t : string) : option string :=
  match search r t with
  | Some caps => Some (remove_char ","%char (group t caps 1))
  | None => None
  end.

Definition set_some (d : PyDict.dict string) (k : string) (o : option string) :=
  match o with Some v => PyDict.set d k v | None => d end.

(** Method 1 of [extract_dataset_info] restricted to the fields
    [modality], [num_train_examples], [num_val_examples],
    [num_test_examples]. *)
Definition from_summary (d : PyDict.dict string) (summary_text : string) : PyDict.dict string :=
  let d := PyDict.set d "modality" (modality_of summary_text) in
  let d := set_some d "num_train_examples" (count_of train_re summary_text) in
  let d := set_some d "num_val_examples" (count_of val_re summary_text) in
  let d := set_some d "num_test_examples" (count_of test_re summary_text) in
  let v k := PyDict.get_default d k "" in
  if String.eqb (v "num_train_examples") "" && String.eqb (v "num_val_examples") ""
     && String.eqb (v "num_test_examples") ""
  then set_some d "num_train_examples" (count_of examples_re summary_text)
  else d.

(** The stripped group 1 of [summary_match] on a description. *)
Definition summary_section (description : string) : option string :=
  match search summary_re description with
  | Some caps => Some (strip (group description caps 1))
  | None => None
  end.

(** Method 2: the modality from the text after the summary heading, when
    Method 1 left it empty. *)
Definition method2 (d : PyDict.dict string) (p : hf_page) : PyDict.dict string :=
  if String.eqb (PyDict.get_default d "modality" "") "" then
    match summary_heading_sibling p with
    | Some summary_text => PyDict.set d "modality" (modality_of summary_text)
    | None => d
    end
  else d.

(** [extract_dataset_info(dataset_name, html_content)] on a non-empty page,
    for the fields above and the preset [benchmark_name], [dataset_link].
    An exception in Method 1 reaches the outer [except Exception], which
    skips Method 2 and returns [dataset_data] as it stands; the statements
    after Method 2 do not assign these fields. *)
Definition extract_dataset_info (dataset_name : string) (p : hf_page) : PyDict.dict string :=
  let d := Extraction.initial_data dataset_name in
  match json_ld_data p with
  | None => method2 d p
  | Some ld =>
    match ld_description ld with
    | Some LdOther => d
    | Some (LdString description) =>
      let d :=
        match summary_section description with
        | Some summary_text => from_summary d summary_text
        | None => d
        end in
      if ld_rest_raises ld then d else method2 d p
    | None => if ld_rest_raises ld then d else method2 d p
    end
  end.



End FieldExtract.



(* ------------------------------------------------------------------ *)
(** ** [clean_text] ([src/huggingface_html_2_csv.py]) *)

Module TextClean.
Import PyStr.

(** The character class [[\n\t\r]]. *)
Definition is_nl_tab_cr (c : ascii) : bool :=
  ascii_eqb c "010"%char || ascii_eqb c "009"%char || ascii_eqb c "013"%char.

(** [re.sub(r'[...]+', ' ', s)] for a character class [p]: every maximal
    run of characters of the class becomes one space. *)
Fixpoint replace_runs_go (p : ascii -> bool) (prev : bool) (s : string) : string :=
  match s with
  | EmptyString => EmptyString
  | String c s' =>
    if p c then
      (if prev then replace_runs_go p true s'
       else String " "%char (replace_runs_go p true s'))
    else String c (replace_runs_go p false s')
  end.

Definition replace_runs (p : ascii -> bool) (s : string) : string :=
  replace_runs_go p false s.

(** [clean_text(text)]: [if not text: return ""], then the two
    substitutions and [strip()]. *)
Definition clean_text (text : string) : string :=
  if String.eqb text "" then ""
  else strip (collapse_ws (replace_runs is_nl_tab_cr text)).

(** Every character satisfies [p]. *)
Fixpoint all_chars (p : ascii -> bool) (s : string) : bool :=
  match s with
  | EmptyString => true
  | String c s' => p c && all_chars p s'
  end.

(** No two adjacent spaces. *)
Fixpoint no_double_space (s : string) : bool :=
  match s with
  | EmptyString => true
  | String c s' =>
    (negb (ascii_eqb c " "%char) || negb (startswith " " s')) && no_double_space s'
  end.

(** The only whitespace character is the plain space. *)
Definition plain_space_only (s : string) : bool :=
  all_chars (fun c => negb (is_space c) || ascii_eqb c " "%char) s.

(** The shape of a cleaned text. *)
Definition normalized (s : string) : bool :=
  plain_space_only s && no_double_space s
  && negb (startswith " " s) && negb (endswith " " s).

End TextClean.

(* ------------------------------------------------------------------ *)
(** ** The dataset catalog ([get_dataset_list] of
       [src/huggingface_dataset_scraper.py]) *)

Module HfCatalog.
Import PyStr ListUtil.
Local Open Scope list_scope.

Definition BASE_URL := "https://huggingface.co".

(** A parsed catalog page.  Each card is represented by the [href] of its
    first [a] element ([None] when it has no link or the link has no
    [href]); the four card lists are the results of the selectors
    ['.dataset-card'], ['article'], ['div[class*="card"]'] and
    ['div[class*="dataset"]']; [dataset_link_hrefs] are the [href]s of
    ['a[href*="/datasets/"]']. *)
Record catalog_page := mk_catalog_page {
  dataset_card_sel : list (option string);
  article_sel : list (option string);
  card_div_sel : list (option string);
  dataset_div_sel : list (option string);
  dataset_link_hrefs : list string
}.

(** One [requests.get] of a catalog page: a response, or an exception
    raised before anything was appended. *)
Inductive page_response := PageResponse (status : Z) (page : catalog_page) | PageError.

(** The selector cascade [if not dataset_cards: dataset_cards = ...]. *)
Definition dataset_cards (p : catalog_page) : list (option string) :=
  match dataset_card_sel p with
  | [] => match article_sel p with
          | [] => match card_div_sel p with
                  | [] => dataset_div_sel p
                  | l => l
                  end
          | l => l
          end
  | l => l
  end.

Section Catalog.
(** [urljoin(BASE_URL, href)] *)
Variable join : string -> string.

(** The entry a dataset link yields, when there are no cards. *)
Definition link_entry (href : string) : option (string * string) :=
  if startswith "/datasets/" href && negb (contains "/datasets/viewer/" href)
     && Nat.leb 3 (List.length (Url.split_on "/"%char href)) then
    let dataset_name := nth 2 (Url.split_on "/"%char href) "" in
    if negb (String.eqb dataset_name "") && negb (startswith "?" dataset_name)
    then Some (dataset_name, join href) else None
  else None.

(** The entry a card yields. *)
Definition card_entry (link : option string) : option (string * string) :=
  match link with
  | Some dataset_url =>
    if startswith "/datasets/" dataset_url then
      let dataset_name := nth 2 (Url.split_on "/"%char dataset_url) "" in
      if negb (String.eqb dataset_name "") then Some (dataset_name, join dataset_url) else None
    else None
  | None => None
  end.

Definition page_entries (p : catalog_page) : list (string * string) :=
  match dataset_cards p with
  | [] => filter_map link_entry (dataset_link_hrefs p)
  | cards => filter_map card_entry cards
  end.

(** [for page in range(page, page + fuel)], with [fetch page] the outcome
    of the request for [DATASETS_URL?p=page]. *)
Fixpoint pages_loop (fetch : nat -> page_response) (page fuel : nat)
    (all_datasets : list (string * string)) : list (string * string) :=
  match fuel with
  | O => all_datasets
  | S fuel' =>
    match fetch page with
    | PageError => pages_loop fetch (S page) fuel' all_datasets
    | PageResponse status p =>
      if negb (Z.eqb status 200) then pages_loop fetch (S page) fuel' all_datasets
      else
        let all_datasets := all_datasets ++ page_entries p in
        match dataset_cards p, dataset_link_hrefs p with
        | [], [] => if Nat.ltb 1 page then all_datasets
                    else pages_loop fetch (S page) fuel' all_datasets
        | _, _ => pages_loop fetch (S page) fuel' all_datasets
        end
    end
  end.

Definition popular_datasets : list string :=
  ["squad"; "glue"; "super_glue"; "imdb"; "wmt16"; "cnn_dailymail"; "common_voice";
   "xnli"; "multi_nli"; "sst2"; "mnli"; "cola"; "rte"; "wnli"; "qnli"; "mrpc"; "stsb";
   "boolq"; "record"; "multirc"; "wic"; "copa"; "wsc"; "cb"; "race"; "drop"; "newsqa";
   "natural_questions"; "triviaqa"; "hotpotqa"; "squad_v2"; "xquad"; "mlqa"; "tydiqa";
   "piqa"; "winogrande"; "hellaswag"; "commonsense_qa"; "arc"; "openbookqa"; "sciq";
   "ai2_arc"; "adversarial_qa"; "quoref"; "quail"; "quartz"; "cosmos_qa"; "dream"].

(** [get_dataset_list(page_count)]; the debug copies of the catalog pages
    it writes are not part of the result and are left out. *)
Definition get_dataset_list (fetch : nat -> page_response) (page_count : nat)
    : list (string * string) :=
  match pages_loop fetch 1 page_count [] with
  | [] => map (fun dataset_name => (dataset_name, (BASE_URL ++ "/datasets/" ++ dataset_name)%string))
              popular_datasets
  | all_datasets => all_datasets
  end.

End Catalog.

End HfCatalog.

(* ------------------------------------------------------------------ *)
(** ** [infer_modalities_from_tasks] ([src/paperswithcode_html_2_csv.py]) *)

Module Modalities.
Import PyStr ListUtil.
Local Open Scope list_scope.

(** [\w] at position [i] of [s]; false outside the string. *)
Definition word_at (s : string) (i : nat) : bool :=
  match String.get i s with Some c => is_word_char c | None => false end.

(** [\b] at position [i]: a word character on exactly one side. *)
Definition boundary (s : string) (i : nat) : bool :=
  xorb (match i with O => false | S j => word_at s j end) (word_at s i).

(** [re.search(r'\b' + pattern + r'\b', s, re.IGNORECASE)] for a literal
    [pattern]. *)
Definition word_search (pattern s : string) : bool :=
  let t := lower s in
  let p := lower pattern in
  existsb (fun i => startswith p (drop i t) && boundary t i
                    && boundary t (i + String.length p))
          (seq 0 (S (String.length t))).

(** [re.search(pattern, s, re.IGNORECASE)] for a literal [pattern]. *)
Definition isearch (pattern s : string) : bool := contains (lower pattern) (lower s).

(** [modality_patterns], in the dict's order. *)
Definition modality_patterns : list (string * list string) :=
  [("Image", ["image"; "visual"; "object detection"; "segmentation"; "recognition";
              "classification"; "detection"; "localization"; "tracking";
              "face"; "person"; "human"; "pose estimation"; "keypoint";
              "instance segmentation"; "semantic segmentation"; "panoptic"]);
   ("Text", ["text"; "nlp"; "language"; "translation"; "sentiment";
             "question answering"; "summarization"; "generation"; "document";
             "named entity"; "parsing"; "speech recognition"; "caption"]);
   ("Audio", ["audio"; "speech"; "voice"; "sound"; "acoustic";
              "music"; "speaker"; "noise"]);
   ("Video", ["video"; "action"; "activity"; "temporal"; "motion";
              "tracking"; "optical flow"]);
   ("3D", ["3d"; "point cloud"; "mesh"; "depth"; "pose";
           "lidar"; "stereo"; "reconstruction"; "human pose"]);
   ("Time Series", ["time series"; "temporal"; "sequence"; "forecasting";
                    "prediction"; "trajectory"]);
   ("Graph", ["graph"; "network"; "relation"; "knowledge graph"; "scene graph"]);
   ("Tabular", ["tabular"; "table"; "spreadsheet"; "structured data"])].

(** [found_modalities.add(m)] on a set kept as a list. *)
Definition set_add (m : string) (found : list string) : list string :=
  if str_mem m found then found else found ++ [m].

(** The body of [for modality, patterns in modality_patterns.items()] for
    one task: a modality is added when one of its patterns matches
    (the [break] only stops the search among its patterns). *)
Definition scan_patterns (found : list string) (task : string) : list string :=
  fold_left (fun found mp =>
               if existsb (fun pattern => word_search pattern task) (snd mp)
               then set_add (fst mp) found else found)
            modality_patterns found.

(** The special cases for one task. *)
Definition special_cases (found : list string) (task : string) : list string :=
  let found :=
    if isearch "pose estimation" task && negb (str_mem "3D" found) then
      let found := set_add "3D" found in
      if negb (str_mem "Image" found) then set_add "Image" found else found
    else found in
  let found :=
    if (isearch "detection" task || isearch "segmentation" task)
       && negb (str_mem "Image" found)
    then set_add "Image" found else found in
  let found :=
    if isearch "caption" task then
      let found := if negb (str_mem "Image" found) then set_add "Image" found else found in
      if negb (str_mem "Text" found) then set_add "Text" found else found
    else found in
  if isearch "visual question" task then
    let found := if negb (str_mem "Image" found) then set_add "Image" found else found in
    if negb (str_mem "Text" found) then set_add "Text" found else found
  else found.

(** [[task.strip() for task in tasks.split(',')]] *)
Definition task_list (tasks : string) : list string :=
  map strip (Url.split_on ","%char tasks).

Definition found_modalities (tasks : string) : list string :=
  let tl := task_list tasks in
  fold_left special_cases tl (fold_left scan_patterns tl []).

(** [sorted(...)] on strings (code-point order).  The sorted list of
    distinct strings does not depend on the algorithm; insertion sort is
    used. *)
Fixpoint insert (x : string) (l : list string) : list string :=
  match l with
  | [] => [x]
  | y :: l' => if String.leb x y then x :: l else y :: insert x l'
  end.

Fixpoint sort (l : list string) : list string :=
  match l with
  | [] => []
  | x :: l' => insert x (sort l')
  end.

Definition infer_modalities_from_tasks (tasks : string) : string :=
  if String.eqb tasks "" then ""
  else String.concat ", " (sort (found_modalities tasks)).

Definition MODALITIES : list string := map fst modality_patterns.

End Modalities.

(* ------------------------------------------------------------------ *)
(** ** The progress file of [src/paperswithcode_html_2_csv.py] *)

Module CsvProgress.
Import Progress.
Local Open Scope list_scope.

(** [save_progress(processed_files)]: the file holds the dict written by
    [json.dump]. *)
Definition save_progress (processed_files : list string) : progress_file :=
  Parsed (PDict [("processed_files", PList (map PStr processed_files));
                 ("count", PNum (Z.of_nat (List.length processed_files)))]).

(** [len(v)]: strings, lists and dicts have a length, other values raise
    [TypeError]. *)
Definition py_len (v : pyval) : result Z :=
  match v with
  | PStr s => Ok (Z.of_nat (String.length s))
  | PList l => Ok (Z.of_nat (List.length l))
  | PDict d => Ok (Z.of_nat (List.length d))
  | _ => Raise "TypeError"
  end.

(** [progress.get('processed_files', [])]: only a dict has [get]. *)
Definition py_get_processed (progress : pyval) : result pyval :=
  match progress with
  | PDict d => Ok (PyDict.get_default d "processed_files" (PList []))
  | _ => Raise "AttributeError"
  end.

(** [load_progress()]; the [len] in the log line runs inside the [try]. *)
Definition load_progress (f : progress_file) : pyval :=
  match f with
  | Absent => PList []
  | Unreadable | Malformed => PList []
  | Parsed progress =>
    match (processed_files <- py_get_processed progress ;;
           _ <- py_len processed_files ;;
           Ok processed_files) with
    | Ok processed_files => processed_files
    | Raise _ => PList []
    end
  end.

End CsvProgress.

(* ================================================================== *)
(** * Theorems *)

(* ------------------------------------------------------------------ *)
(** ** Page Store paths *)

Module PageStorePathFacts.
Import PyStr PageStorePath.

Example sanitize_slash : sanitize 50 "Speech/Commands v2 (a?)" = "Speech_Commands_v2__a__".
Proof. reflexivity. Qed.

Lemma sub_unsafe_allowed (s : string) : all_chars allowed_char (sub_unsafe s) = true.
Proof.
  induction s as [|c s IH]; simpl; [reflexivity|].
  rewrite IH, andb_true_r.
  destruct (allowed_char c) eqn:E; [exact E|reflexivity].
Qed.

Lemma all_chars_prefix (f : ascii -> bool) (n : nat) (s : string) :
  all_chars f s = true -> all_chars f (substring 0 n s) = true.
Proof.
  revert n; induction s as [|c s IH]; intros n H; destruct n; simpl in *; auto.
  apply andb_true_iff in H as [H1 H2]. rewrite H1. simpl. auto.
Qed.

Lemma prefix_length (n : nat) (s : string) : String.length (substring 0 n s) <= n.
Proof.
  revert n; induction s as [|c s IH]; intros n; destruct n; simpl; try lia.
  specialize (IH n). lia.
Qed.

Lemma sanitize_allowed (n : nat) (s : string) :
  all_chars allowed_char (sanitize n s) = true.
Proof. apply all_chars_prefix, sub_unsafe_allowed. Qed.

Lemma sanitize_length (n : nat) (s : string) : String.length (sanitize n s) <= n.
Proof. apply prefix_length. Qed.

(** C8: every path component that [save_dataset_page] derives from the
    hierarchy names (area, subtask, task, each capped at 30) and from the
    dataset name (capped at 50) consists only of characters of the class
    [[\w\-\.]] and respects its length cap, whatever characters the names hold. *)
Theorem save_dataset_page_components_safe (name area subtask task : string) :
  Forall (fun comp => all_chars allowed_char comp = true /\ String.length comp <= 30)
         (dir_components area subtask task)
  /\ all_chars allowed_char (file_stem name) = true
  /\ String.length (file_stem name) <= 50.
Proof.
  split; [|split; [apply sanitize_allowed|apply sanitize_length]].
  unfold dir_components.
  destruct (String.eqb _ _);
    repeat (apply Forall_cons; [split; [apply sanitize_allowed|apply sanitize_length]|]);
    apply Forall_nil.
Qed.

End PageStorePathFacts.

(* ------------------------------------------------------------------ *)
(** ** Python string primitives *)

Module PyStrFacts.
Import PyStr.

Example replace_task : py_replace "/task/" "/dataset/" "https://paperswithcode.com/task/qa"
  = "https://paperswithcode.com/dataset/qa".
Proof. reflexivity. Qed.

Example strip_ws : strip "  a b  " = "a b".
Proof. reflexivity. Qed.

Lemma startswith_length (p s : string) :
  startswith p s = true -> String.length p <= String.length s.
Proof.
  revert s; induction p as [|a p IH]; intros [|b s] H; simpl in *; try lia; try discriminate.
  apply andb_true_iff in H as [_ H]. specialize (IH s H). lia.
Qed.

Lemma drop_length (n : nat) (s : string) :
  String.length (drop n s) = String.length s - n.
Proof.
  revert s; induction n as [|n IH]; intros [|c s]; simpl; auto; lia.
Qed.

Lemma length_append (s1 s2 : string) :
  String.length (s1 ++ s2) = String.length s1 + String.length s2.
Proof. induction s1 as [|c s1 IH]; simpl; auto. Qed.

Section Replace.
Variables p r : string.
Hypothesis p_nonempty : p <> EmptyString.
Hypothesis r_longer : String.length p < String.length r.

Lemma replace_go_no_occurrence (fuel : nat) (s : string) :
  contains p s = false -> replace_go fuel p r s = s.
Proof.
  revert s; induction fuel as [|f IH]; intros s H; [reflexivity|].
  destruct s as [|c s']; simpl; [reflexivity|].
  simpl in H. apply orb_false_iff in H as [H1 H2].
  rewrite H1. f_equal. apply IH. exact H2.
Qed.

Lemma p_length_pos : 1 <= String.length p.
Proof. destruct p; [congruence|simpl; lia]. Qed.

Lemma replace_go_not_shorter (fuel : nat) (s : string) :
  String.length s <= fuel ->
  String.length s <= String.length (replace_go fuel p r s).
Proof.
  pose proof p_length_pos.
  revert s; induction fuel as [|f IH]; intros s Hl; [simpl; lia|].
  destruct s as [|c s']; [simpl; lia|].
  change (replace_go (S f) p r (String c s')) with
    (if startswith p (String c s') then r ++ replace_go f p r (drop (String.length p) (String c s'))
     else String c (replace_go f p r s')).
  destruct (startswith p (String c s')) eqn:Hp.
  - rewrite length_append.
    pose proof (drop_length (String.length p) (String c s')) as Hd.
    assert (Hle : String.length (drop (String.length p) (String c s')) <= f) by (rewrite Hd; cbn [String.length] in Hl |- *; lia).
    specialize (IH _ Hle). lia.
  - simpl. apply le_n_S. apply IH. simpl in Hl. lia.
Qed.

Lemma replace_go_occurrence (fuel : nat) (s : string) :
  String.length s <= fuel -> contains p s = true ->
  String.length s < String.length (replace_go fuel p r s).
Proof.
  pose proof p_length_pos.
  revert s; induction fuel as [|f IH]; intros s Hl Hc.
  - destruct s as [|c s']; simpl in Hl; [|lia].
    simpl in Hc. destruct p; [congruence|discriminate].
  - destruct s as [|c s'].
    + simpl in Hc. destruct p; [congruence|discriminate].
    + change (replace_go (S f) p r (String c s')) with
        (if startswith p (String c s') then r ++ replace_go f p r (drop (String.length p) (String c s'))
         else String c (replace_go f p r s')).
      destruct (startswith p (String c s')) eqn:Hp.
      * rewrite length_append.
        pose proof (startswith_length _ _ Hp) as Hps.
        pose proof (drop_length (String.length p) (String c s')) as Hd.
        assert (Hle : String.length (drop (String.length p) (String c s')) <= f)
          by (rewrite Hd; cbn [String.length] in Hl |- *; lia).
        pose proof (replace_go_not_shorter f _ Hle). lia.
      * simpl in Hc. rewrite Hp in Hc. simpl in Hc.
        simpl. apply le_n_S. apply IH; [simpl in Hl; lia|exact Hc].
Qed.

(** [s.replace(p, r)] leaves [s] unchanged exactly when [p] does not occur. *)
Lemma py_replace_unchanged_iff (s : string) :
  py_replace p r s = s <-> contains p s = false.
Proof.
  unfold py_replace. split.
  - intros H. destruct (contains p s) eqn:Hc; [|reflexivity].
    pose proof (replace_go_occurrence (String.length s) s (le_n _) Hc) as Hlt.
    rewrite H in Hlt. lia.
  - apply replace_go_no_occurrence.
Qed.

End Replace.

End PyStrFacts.

(* ------------------------------------------------------------------ *)
(** ** Python dictionaries *)

Module PyDictFacts.
Import PyDict ListUtil.
Local Open Scope list_scope.

Lemma mem_keys {V} (k : string) (d : dict V) : mem k d = str_mem k (keys d).
Proof.
  unfold mem, str_mem, keys. induction d as [|[k' v'] d IH]; simpl; auto.
  now rewrite IH.
Qed.

Lemma keys_set {V} (d : dict V) (k : string) (v : V) :
  keys (set d k v) = if mem k d then keys d else keys d ++ [k].
Proof.
  induction d as [|[k' v'] d IH]; simpl; [reflexivity|].
  destruct (String.eqb k k') eqn:E; simpl; [reflexivity|].
  rewrite IH. unfold mem. destruct (existsb _ d); reflexivity.
Qed.

Lemma get_set {V} (d : dict V) (k : string) (v : V) (k0 : string) :
  get (set d k v) k0 = if String.eqb k0 k then Some v else get d k0.
Proof.
  induction d as [|[k' v'] d IH]; simpl.
  - reflexivity.
  - destruct (String.eqb k k') eqn:E; simpl.
    + apply String.eqb_eq in E; subst k'. destruct (String.eqb k0 k); reflexivity.
    + destruct (String.eqb k0 k') eqn:E0; [|exact IH].
      apply String.eqb_eq in E0; subst k0.
      rewrite String.eqb_sym, E. reflexivity.
Qed.

Lemma in_set {V} (d : dict V) (k : string) (v : V) (k0 : string) (v0 : V) :
  In (k0, v0) (set d k v) -> (k0 = k /\ v0 = v) \/ In (k0, v0) d.
Proof.
  induction d as [|[k' v'] d IH]; simpl; intros H.
  - destruct H as [H|[]]. inversion H; auto.
  - destruct (String.eqb k k') eqn:E; simpl in H.
    + apply String.eqb_eq in E; subst k'.
      destruct H as [H|H]; [inversion H; auto|auto].
    + destruct H as [H|H]; [auto|]. destruct (IH H); auto.
Qed.

Lemma in_keys_mem {V} (k : string) (d : dict V) :
  In k (keys d) -> mem k d = true.
Proof.
  intros H. rewrite mem_keys. unfold str_mem. apply existsb_exists.
  exists k. split; [exact H|apply String.eqb_refl].
Qed.

Lemma get_in {V} (d : dict V) (k : string) (v : V) :
  NoDup (keys d) -> In (k, v) d -> get d k = Some v.
Proof.
  induction d as [|[k' v'] d IH]; simpl; [tauto|].
  intros Hnd [H|H].
  - inversion H; subst. rewrite String.eqb_refl. reflexivity.
  - inversion Hnd as [|? ? Hnotin Hnd']; subst.
    destruct (String.eqb k k') eqn:E.
    + apply String.eqb_eq in E; subst k'. exfalso. apply Hnotin.
      change k with (fst (k, v)). apply in_map. exact H.
    + apply IH; assumption.
Qed.

(** A dictionary of nodes keyed by their URLs: keys are unique and every
    value's URL is its key. *)
Definition node_dict {V} (url_of : V -> string) (d : dict V) : Prop :=
  NoDup (keys d) /\ (forall k v, In (k, v) d -> url_of v = k).

Lemma node_dict_set {V} (url_of : V -> string) (d : dict V) (n : V) :
  node_dict url_of d -> node_dict url_of (set d (url_of n) n).
Proof.
  intros (Hnd & Hurl). split.
  - rewrite keys_set. destruct (mem (url_of n) d) eqn:Hm; [exact Hnd|].
    apply NoDup_app; auto using NoDup_cons, NoDup_nil.
    intros x Hx [<-|[]]. apply in_keys_mem in Hx. congruence.
  - intros k v Hin. destruct (in_set _ _ _ _ _ Hin) as [[-> ->]|H]; auto.
Qed.

Lemma str_mem_app (x : string) (l1 l2 : list string) :
  str_mem x (l1 ++ l2) = str_mem x l1 || str_mem x l2.
Proof. unfold str_mem. apply existsb_app. Qed.

Lemma dedup_go_ext (l : list string) (s1 s2 : list string) :
  (forall x, str_mem x s1 = str_mem x s2) -> dedup_go s1 l = dedup_go s2 l.
Proof.
  revert s1 s2; induction l as [|x l IH]; intros s1 s2 H; simpl; [reflexivity|].
  rewrite H. destruct (str_mem x s2); [apply IH; exact H|].
  f_equal. apply IH. intros y. simpl. rewrite H. reflexivity.
Qed.

Lemma dedup_go_nodup (l seen : list string) :
  NoDup (dedup_go seen l) /\ (forall x, In x (dedup_go seen l) -> str_mem x seen = false).
Proof.
  revert seen; induction l as [|y l IH]; intros seen; simpl.
  - split; [constructor|tauto].
  - destruct (str_mem y seen) eqn:Hy; [apply IH|].
    destruct (IH (y :: seen)) as [Hnd Hout]. split.
    + constructor; [|exact Hnd].
      intros Hin. specialize (Hout y Hin). simpl in Hout.
      rewrite String.eqb_refl in Hout. discriminate.
    + intros x [<-|Hin]; [exact Hy|].
      specialize (Hout x Hin). simpl in Hout. apply orb_false_iff in Hout. tauto.
Qed.

Lemma dedup_nodup (l : list string) : NoDup (dedup l).
Proof. apply dedup_go_nodup. Qed.

Lemma dedup_id_nodup (l : list string) : dedup l = l -> NoDup l.
Proof. intros H. rewrite <- H. apply dedup_nodup. Qed.

(** The loop [for n in nodes: d[url_of(n)] = n]. *)
Definition build {V} (url_of : V -> string) (d : dict V) (nodes : list V) : dict V :=
  fold_left (fun d n => set d (url_of n) n) nodes d.

Lemma build_keys {V} (url_of : V -> string) (nodes : list V) (d : dict V) :
  keys (build url_of d nodes) = keys d ++ dedup_go (keys d) (map url_of nodes).
Proof.
  unfold build. revert d; induction nodes as [|n nodes IH]; intros d; simpl.
  - rewrite app_nil_r. reflexivity.
  - rewrite IH, keys_set, <- mem_keys.
    destruct (mem (url_of n) d) eqn:Hm; [reflexivity|].
    rewrite <- app_assoc. simpl. f_equal. f_equal.
    apply dedup_go_ext. intros x. rewrite str_mem_app. simpl.
    rewrite orb_false_r, orb_comm. reflexivity.
Qed.

Lemma build_get {V} (url_of : V -> string) (nodes : list V) (d : dict V) (k : string) :
  get (build url_of d nodes) k =
  match last_with k (map (fun n => (url_of n, n)) nodes) with
  | Some w => Some w
  | None => get d k
  end.
Proof.
  unfold build. revert d; induction nodes as [|n nodes IH]; intros d; simpl; [reflexivity|].
  rewrite IH, get_set. destruct (last_with _ _); [reflexivity|]. destruct (String.eqb k (url_of n)); reflexivity.
Qed.

Lemma build_node_dict {V} (url_of : V -> string) (nodes : list V) (d : dict V) :
  node_dict url_of d -> node_dict url_of (build url_of d nodes).
Proof.
  unfold build. revert d; induction nodes as [|n nodes IH]; intros d H; simpl; [exact H|].
  apply IH, node_dict_set, H.
Qed.

Lemma node_dict_nil {V} (url_of : V -> string) : node_dict url_of [].
Proof. split; [constructor|simpl; tauto]. Qed.

Lemma values_urls {V} (url_of : V -> string) (d : dict V) :
  node_dict url_of d -> map url_of (values d) = keys d.
Proof.
  intros [_ Hurl]. unfold values, keys. rewrite map_map.
  apply map_ext_in. intros [k v] Hin. apply (Hurl k v Hin).
Qed.

(** The dictionary built from a list of nodes, read back with [values]:
    its URLs are the node URLs with later duplicates removed, in order of
    first occurrence, and the node kept for each URL is its last occurrence. *)
Theorem build_values {V} (url_of : V -> string) (nodes : list V) :
  let out := values (build url_of [] nodes) in
  map url_of out = dedup (map url_of nodes)
  /\ NoDup (map url_of out)
  /\ (forall n, In n out -> last_with (url_of n) (map (fun m => (url_of m, m)) nodes) = Some n).
Proof.
  pose proof (build_node_dict url_of nodes [] (node_dict_nil url_of)) as Hnd.
  assert (Hurls : map url_of (values (build url_of [] nodes)) = dedup (map url_of nodes)).
  { rewrite values_urls by exact Hnd. rewrite build_keys. reflexivity. }
  simpl. split; [exact Hurls|split].
  - rewrite Hurls. apply dedup_nodup.
  - intros n Hin. unfold values in Hin. apply in_map_iff in Hin as [[k v] [Hv Hin]].
    simpl in Hv; subst v.
    destruct Hnd as [Hk Hurl].
    pose proof (get_in _ _ _ Hk Hin) as Hg.
    rewrite build_get in Hg. rewrite (Hurl k n Hin).
    destruct (last_with k _); [congruence|discriminate].
Qed.

End PyDictFacts.


(* ------------------------------------------------------------------ *)
(** ** Crawl Frontier *)

Module FrontierFacts.
Import PyStr PyStrFacts Url ListUtil PyDict PyDictFacts Frontier.
Local Open Scope list_scope.

Example name_from_url_task :
  name_from_url "https://paperswithcode.com/task/image-classification" = "Image Classification".
Proof. reflexivity. Qed.

Example urljoin_task : urljoin_base "/task/qa" = "https://paperswithcode.com/task/qa".
Proof. reflexivity. Qed.

Definition qa_task : task_node :=
  mk_task "Question Answering" "https://paperswithcode.com/task/question-answering"
          "Question Answering" "Natural Language Processing".

Example synthetic_qa :
  extract_datasets_from_task_page qa_task None =
  [mk_dataset "Question Answering Dataset" "https://paperswithcode.com/dataset/question-answering"
              "Question Answering" "Question Answering" "Natural Language Processing" true].
Proof. reflexivity. Qed.

Lemma task_dataset_replace_unchanged (u : string) :
  py_replace "/task/" "/dataset/" u = u <-> contains "/task/" u = false.
Proof. apply py_replace_unchanged_iff; [discriminate|simpl; lia]. Qed.

Lemma synthetic_dataset_spec (task : task_node) :
  synthetic_dataset task =
  if contains "/task/" (t_url task)
  then [mk_dataset (t_name task ++ " Dataset") (py_replace "/task/" "/dataset/" (t_url task))
                   (t_name task) (t_subtask task) (t_area task) true]
  else [].
Proof.
  unfold synthetic_dataset.
  destruct (contains "/task/" (t_url task)) eqn:Hc.
  - destruct (String.eqb (py_replace "/task/" "/dataset/" (t_url task)) (t_url task)) eqn:E.
    + apply String.eqb_eq, task_dataset_replace_unchanged in E. congruence.
    + reflexivity.
  - apply task_dataset_replace_unchanged in Hc. rewrite Hc, String.eqb_refl. reflexivity.
Qed.

(** C1 (amended): when a task page yields no dataset link at all (the page
    was not found, or none of the three link queries produces a dataset),
    the frontier returns exactly one synthetic dataset if the task URL
    contains [/task/]: it is named "<task name> Dataset", its URL is the task
    URL with [/task/] replaced by [/dataset/] (hence different from the task
    URL), it inherits the task's hierarchy and its synthetic flag is set.
    A task URL without [/task/] yields no dataset at all. *)
Theorem no_dataset_links_synthetic (task : task_node) (page : option task_page) :
  (page = None \/
   exists p, page = Some p
     /\ match datasets_heading p with
        | Some siblings => collect task (List.concat siblings)
        | None => []
        end = []
     /\ collect task (dataset_links p) = []
     /\ collect task (filter (fun l => contains "/dataset/" (href l))
                             (List.concat (dataset_cards p))) = []) ->
  extract_datasets_from_task_page task page =
  (if contains "/task/" (t_url task)
   then [mk_dataset (t_name task ++ " Dataset") (py_replace "/task/" "/dataset/" (t_url task))
                    (t_name task) (t_subtask task) (t_area task) true]
   else [])
  /\ (contains "/task/" (t_url task) = true ->
      py_replace "/task/" "/dataset/" (t_url task) <> t_url task).
Proof.
  intros Hpage. split.
  - rewrite <- synthetic_dataset_spec.
    destruct Hpage as [->|(p & -> & H1 & H2 & H3)]; [reflexivity|].
    simpl. rewrite H1, H2, H3. reflexivity.
  - intros Hc Heq. apply task_dataset_replace_unchanged in Heq. congruence.
Qed.

Lemma no_dataset_links_synthetic_witness :
  extract_datasets_from_task_page qa_task None =
  [mk_dataset "Question Answering Dataset" "https://paperswithcode.com/dataset/question-answering"
              "Question Answering" "Question Answering" "Natural Language Processing" true]
  /\ (contains "/task/" (t_url qa_task) = true ->
      py_replace "/task/" "/dataset/" (t_url qa_task) <> t_url qa_task).
Proof.
  exact (no_dataset_links_synthetic qa_task None (or_introl eq_refl)).
Defined.

(** C1 as stated fails: for a task page that was not found, the synthetic
    child neither reuses the task's name nor its URL. *)
Lemma synthetic_child_not_parent_url :
  ~ (exists d, extract_datasets_from_task_page qa_task None = [d]
               /\ d_name d = t_name qa_task /\ d_url d = t_url qa_task
               /\ d_synthetic d = true).
Proof.
  intros (d & H & _ & Hu & _).
  vm_compute in H. injection H as <-. vm_compute in Hu. discriminate.
Qed.

(** *** De-duplication of areas and subtasks *)

Lemma fold_add_node {A V} (url_of : V -> string) (f : A -> option V) (xs : list A)
    (d : dict V) :
  fold_left (fun d x => add_node url_of d (f x)) xs d = build url_of d (filter_map f xs).
Proof.
  unfold build. revert d; induction xs as [|x xs IH]; intros d; simpl; [reflexivity|].
  destruct (f x); simpl; apply IH.
Qed.

Lemma fallback_areas_nodup : NoDup (map a_url fallback_areas).
Proof. apply dedup_id_nodup. vm_compute. reflexivity. Qed.

Lemma download_fallback_areas_nodup : NoDup (map a_url download_fallback_areas).
Proof. apply dedup_id_nodup. vm_compute. reflexivity. Qed.

(** The nodes a de-duplicating loop returns, relative to its candidates. *)
Definition dedup_of {V} (url_of : V -> string) (out cands : list V) : Prop :=
  map url_of out = dedup (map url_of cands)
  /\ NoDup (map url_of out)
  /\ (forall n, In n out -> last_with (url_of n) (map (fun m => (url_of m, m)) cands) = Some n).

Lemma values_build_dedup_of {V} (url_of : V -> string) (cands : list V) :
  dedup_of url_of (values (build url_of [] cands)) cands.
Proof. apply build_values. Qed.

Lemma extract_subtasks_dedup (area : area_node) (p : area_page) :
  dedup_of st_url (extract_subtasks_from_area_page area p)
                  (filter_map (subtask_of_link area) (subtask_links p)).
Proof.
  unfold extract_subtasks_from_area_page.
  destruct (subtask_links p) as [|l ls] eqn:E.
  - simpl. split; [reflexivity|split; [constructor|simpl; tauto]].
  - rewrite <- E. unfold subtask_step. rewrite (fold_add_node st_url (subtask_of_link area)).
    apply values_build_dedup_of.
Qed.

Lemma extract_areas_dedup (page : option sota_page) :
  let out := extract_areas_from_sota_page page in
  out = fallback_areas \/ out = download_fallback_areas
  \/ exists p, page = Some p
       /\ (dedup_of a_url out (filter_map area_of_section (sections p))
           \/ dedup_of a_url out (filter_map area_of_link (area_links p))).
Proof.
  simpl. destruct page as [p|]; [|right; left; reflexivity].
  unfold extract_areas_from_sota_page.
  assert (Hsec : fold_left area_section_step (sections p) [] =
                 build a_url [] (filter_map area_of_section (sections p)))
    by apply (fold_add_node a_url area_of_section).
  assert (Hlnk : fold_left area_link_step (area_links p) [] =
                 build a_url [] (filter_map area_of_link (area_links p)))
    by apply (fold_add_node a_url area_of_link).
  set (general :=
    let unique_areas := fold_left area_section_step (sections p) [] in
    let unique_areas :=
      match unique_areas with
      | [] => fold_left area_link_step (area_links p) []
      | _ :: _ => unique_areas
      end in
    match values unique_areas with
    | [] => fallback_areas
    | a :: l => a :: l
    end).
  assert (Hgen : general = fallback_areas \/ dedup_of a_url general (filter_map area_of_section (sections p))
                 \/ dedup_of a_url general (filter_map area_of_link (area_links p))).
  { subst general. cbv zeta. rewrite Hsec, Hlnk.
    destruct (build a_url [] (filter_map area_of_section (sections p))) as [|kv rest] eqn:Es.
    - destruct (values (build a_url [] (filter_map area_of_link (area_links p)))) as [|a l] eqn:El;
        [left; reflexivity|].
      right; right. rewrite <- El. apply values_build_dedup_of.
    - destruct (values (kv :: rest)) as [|a l] eqn:Ev; [left; reflexivity|].
      right; left. rewrite <- Ev, <- Es. apply values_build_dedup_of. }
  destruct (sections p) as [|s ss] eqn:Es1, (area_links p) as [|l ls] eqn:El1;
    try (left; reflexivity);
    (destruct Hgen as [Hg|[Hg|Hg]]; [left; exact Hg|right; right; exists p; split; [reflexivity|];
      rewrite ?Es1, ?El1 in *; auto..]).
Qed.

(** C9 (amended): the area and subtask lists the frontier returns hold at
    most one node per URL; URLs keep the order of their first occurrence
    among the candidate links (or are one of the two hardcoded fallback
    lists), and the node kept for a URL is the one built from its last
    occurrence, since re-assigning a dict key keeps the key's position but
    replaces its value. *)
Theorem frontier_dedup_by_url :
  (forall page : option sota_page,
     let out := extract_areas_from_sota_page page in
     NoDup (map a_url out)
     /\ (out = fallback_areas \/ out = download_fallback_areas
         \/ exists p, page = Some p
              /\ (dedup_of a_url out (filter_map area_of_section (sections p))
                  \/ dedup_of a_url out (filter_map area_of_link (area_links p)))))
  /\ (forall (area : area_node) (p : area_page),
        dedup_of st_url (extract_subtasks_from_area_page area p)
                        (filter_map (subtask_of_link area) (subtask_links p))).
Proof.
  split; [|apply extract_subtasks_dedup].
  intros page. cbv zeta. pose proof (extract_areas_dedup page) as H. cbv zeta in H.
  split; [|exact H].
  destruct H as [Heq|[Heq|(p & _ & [(_ & Hnd & _)|(_ & Hnd & _)])]];
    try rewrite Heq; auto using fallback_areas_nodup, download_fallback_areas_nodup.
Qed.

Definition qa_area : area_node :=
  mk_area "Natural Language Processing" "https://paperswithcode.com/area/natural-language-processing".

Definition qa_area_page : area_page :=
  mk_area_page (Some [mk_link "/task/question-answering" "Question Answering";
                      mk_link "/task/question-answering" "QA (all)"]) [] [].

(** C9 as stated fails: of two links to the same subtask URL, the node kept
    carries the name of the later link, not of the first. *)
Lemma subtask_dedup_keeps_last :
  extract_subtasks_from_area_page qa_area qa_area_page =
    [mk_subtask "QA (all)" "https://paperswithcode.com/task/question-answering"
                "Natural Language Processing"]
  /\ ~ In (mk_subtask "Question Answering" "https://paperswithcode.com/task/question-answering"
                      "Natural Language Processing")
          (extract_subtasks_from_area_page qa_area qa_area_page).
Proof.
  assert (H : extract_subtasks_from_area_page qa_area qa_area_page =
    [mk_subtask "QA (all)" "https://paperswithcode.com/task/question-answering"
                "Natural Language Processing"]) by (vm_compute; reflexivity).
  split; [exact H|]. rewrite H. intros [Heq|[]]. discriminate.
Qed.

End FrontierFacts.


(* ------------------------------------------------------------------ *)
(** ** Progress ledger *)

Module ProgressFacts.
Import PyStr PyDict Progress.
Local Open Scope list_scope.

(** [k not in progress], then [progress[k] = []], on a dict. *)
Definition ensure_in_dict (d : dict pyval) (k : string) : dict pyval :=
  if mem k d then d else set d k (PList []).

Lemma ensure_key_dict (d : dict pyval) (k : string) :
  ensure_key (PDict d) k = Ok (PDict (ensure_in_dict d k)).
Proof.
  unfold ensure_key, ensure_in_dict. simpl. destruct (mem k d); reflexivity.
Qed.

Lemma mem_get {V} (k : string) (d : dict V) : mem k d = false <-> get d k = None.
Proof.
  unfold mem. induction d as [|[k' v] d IH]; simpl; [tauto|].
  destruct (String.eqb k k'); simpl; [split; discriminate|exact IH].
Qed.

Lemma get_ensure (d : dict pyval) (k k0 : string) :
  get (ensure_in_dict d k) k0 =
  if String.eqb k0 k
  then Some (match get d k with Some v => v | None => PList [] end)
  else get d k0.
Proof.
  unfold ensure_in_dict.
  destruct (mem k d) eqn:Hm.
  - destruct (String.eqb k0 k) eqn:E; [|reflexivity].
    apply String.eqb_eq in E; subst k0.
    destruct (get d k) eqn:Hg; [reflexivity|].
    apply mem_get in Hg. congruence.
  - rewrite PyDictFacts.get_set.
    destruct (String.eqb k0 k) eqn:E; [|reflexivity].
    apply String.eqb_eq in E; subst k0.
    apply mem_get in Hm. rewrite Hm. reflexivity.
Qed.

Example load_wrong_shape_number : load_progress (Parsed (PNum 3)) = fresh_progress.
Proof. reflexivity. Qed.

Example load_partial_list :
  load_progress (Parsed (PList [PStr "processed_areas"])) = fresh_progress.
Proof. reflexivity. Qed.

(** C10 (amended): [load_progress] never raises.  When the ledger file is
    absent, unreadable or not valid JSON it returns a dict binding the five
    keys to empty lists.  When the JSON is an object it returns that object
    with every missing key among the five added (in order) as an empty
    list, while keys already present keep their stored values whatever
    their type.  For any other JSON value it returns the value itself
    unchanged when all five key names are [in] it (a list holding them, a
    string containing them), and the fresh ledger otherwise (numbers,
    booleans and null make [in] raise; lists and strings make the item
    assignment raise). *)
Theorem load_progress_spec :
  load_progress Absent = fresh_progress
  /\ load_progress Unreadable = fresh_progress
  /\ load_progress Malformed = fresh_progress
  /\ fresh_progress = PDict (map (fun k => (k, PList [])) LEDGER_KEYS)
  /\ (forall v : pyval,
        load_progress (Parsed v) =
        match v with
        | PDict d => PDict (fold_left ensure_in_dict LEDGER_KEYS d)
        | _ => if forallb (fun k => match py_in k v with Ok b => b | Raise _ => false end)
                          LEDGER_KEYS
               then v else fresh_progress
        end)
  /\ (forall d : dict pyval,
        Forall (fun k => get (fold_left ensure_in_dict LEDGER_KEYS d) k =
                         Some (match get d k with Some v => v | None => PList [] end))
               LEDGER_KEYS).
Proof.
  split; [reflexivity|split; [reflexivity|split; [reflexivity|split; [reflexivity|split]]]].
  - intros v. destruct v as [| b | z | s | l | d]; simpl; try reflexivity.
    + unfold ensure_keys, ensure_key, py_setitem; simpl.
      repeat match goal with
             | |- context [contains ?k s] => destruct (contains k s); simpl
             end; reflexivity.
    + unfold ensure_keys, ensure_key, py_setitem; simpl.
      repeat match goal with
             | |- context [existsb (eq_str ?k) l] => destruct (existsb (eq_str k) l); simpl
             end; reflexivity.
    + unfold load_progress, ensure_keys.
      repeat (rewrite ensure_key_dict; cbn [bind]). reflexivity.
  - intros d. simpl.
    repeat constructor; rewrite !get_ensure; reflexivity.
Qed.

(** C10 as stated fails: a stored object whose [processed_areas] is a
    number is returned with that number, and a JSON list holding the five
    key names is returned as a list, not as a dict. *)
Lemma load_progress_keeps_wrong_types :
  load_progress (Parsed (PDict [("processed_areas", PNum 5)])) =
    PDict [("processed_areas", PNum 5); ("processed_subtasks", PList []);
           ("processed_tasks", PList []); ("processed_datasets", PList []);
           ("downloaded_datasets", PList [])]
  /\ load_progress (Parsed (PList (map PStr LEDGER_KEYS))) = PList (map PStr LEDGER_KEYS).
Proof. split; reflexivity. Qed.

End ProgressFacts.

(* ------------------------------------------------------------------ *)
(** ** Tabular writers *)

Module TabularFacts.
Import PyDict Tabular.
Local Open Scope list_scope.

Lemma filtered_row (item : record) :
  dict_writer_row BENCHMARK_FIELDS (filtered_item item)
  = Progress.Ok (map (fun f => get_default item f "") BENCHMARK_FIELDS).
Proof.
  (* [BENCHMARK_FIELDS] is a literal list: both sides compute field by field *)
  reflexivity.
Qed.

Example hf_row_missing_fields :
  save_to_csv [[("benchmark_name", "squad"); ("modality", "Text")]] =
  Progress.Ok [BENCHMARK_FIELDS;
    ["squad"; "Text"; ""; ""; ""; ""; ""; ""; ""; ""; ""; ""; ""; ""; ""; "";
     ""; ""; ""; ""; ""; ""; ""; ""; ""; ""; ""]].
Proof. reflexivity. Qed.

(** C5: the Hugging Face writer [save_to_csv] writes the header and, for
    every input record, whatever subset of the declared fields it holds, a
    row of exactly the 27 declared columns in the declared order, each
    missing field written as the empty string; it never raises.  The
    Papers With Code writer of [extract_datasets] writes, for every record
    [process_html_file] extracts, a row of exactly its 19 header columns in
    header order. *)
Theorem tabular_writer_schema :
  (forall data : list record,
     exists rows,
       save_to_csv data = Progress.Ok (BENCHMARK_FIELDS :: rows)
       /\ Forall2 (fun item row =>
                     row = map (fun f => get_default item f "") BENCHMARK_FIELDS
                     /\ List.length row = List.length BENCHMARK_FIELDS)
                  data rows)
  /\ List.length BENCHMARK_FIELDS = 27
  /\ (forall (i : pwc_info) (area subtask task : string),
        exists row, pwc_row i area subtask task = Progress.Ok row
          /\ List.length row = List.length PWC_HEADERS
          /\ row = [dataset_id i; dataset_name i; description i; homepage_url i;
                    license i; modalities i; languages i; year_published i;
                    paper_title i; paper_url i; dataset_size i; dataset_splits i;
                    num_classes i; associated_tasks i; benchmark_urls i; pwc_url i;
                    area; subtask; task]).
Proof.
  split; [|split; [reflexivity|]].
  - intros data.
    assert (H : exists rows, write_rows BENCHMARK_FIELDS data = Progress.Ok rows
              /\ Forall2 (fun item row =>
                     row = map (fun f => get_default item f "") BENCHMARK_FIELDS
                     /\ List.length row = List.length BENCHMARK_FIELDS) data rows).
    { induction data as [|item data IH]; cbn [write_rows].
      - exists []. split; [reflexivity|constructor].
      - destruct IH as (rows & Hw & Hf).
        rewrite filtered_row, Hw. cbn [Progress.bind].
        eexists; split; [reflexivity|]. constructor; [|exact Hf].
        split; [reflexivity|apply length_map]. }
    destruct H as (rows & Hw & Hf). exists rows.
    unfold save_to_csv. rewrite Hw. split; [reflexivity|exact Hf].
  - intros i area subtask task. eexists. split; [|split; [|reflexivity]].
    + unfold pwc_row, dict_writer_row. vm_compute. reflexivity.
    + reflexivity.
Qed.

End TabularFacts.


(* ------------------------------------------------------------------ *)
Module PageStoreFacts.
Import PageStore Frontier.
Local Open Scope list_scope.

Lemma mem_set {V} (d : PyDict.dict V) (k : string) (v : V) :
  PyDict.mem k (PyDict.set d k v) = true.
Proof.
  unfold PyDict.mem. induction d as [|[k' v'] d IH]; simpl.
  - now rewrite String.eqb_refl.
  - destruct (String.eqb k k') eqn:E; simpl; rewrite E; simpl; auto.
Qed.

Definition dataset_path (d : dataset_node) : string :=
  PageStorePath.file_path (d_name d) (d_area d) (d_subtask d) (d_task d).

Lemma save_exists (dl : string -> option string) d f :
  exists_path (dataset_path d) f = true -> save_dataset_page dl d f = (true, f, []).
Proof. unfold save_dataset_page, dataset_path. now intros ->. Qed.

Lemma save_success_stored (dl : string -> option string) d f f' fetched :
  save_dataset_page dl d f = (true, f', fetched) -> exists_path (dataset_path d) f' = true.
Proof.
  unfold save_dataset_page, dataset_path, exists_path.
  destruct (PyDict.mem _ f) eqn:E; [intros H; inversion H; subst; exact E|].
  destruct (d_synthetic d); [intros H; inversion H; apply mem_set|].
  destruct (dl (d_url d)) as [html|]; [|discriminate].
  destruct (String.eqb html ""); [discriminate|].
  intros H; inversion H; apply mem_set.
Qed.

Lemma hf_exists get name url f :
  exists_path (hf_file_path name) f = true ->
  download_dataset_page get (name, url) f = (true, f, []).
Proof. unfold download_dataset_page. now intros ->. Qed.

Lemma retry_loop_success_stored get url p i n f f' fetched :
  retry_loop get url p i n f = (true, f', fetched) -> exists_path p f' = true.
Proof.
  revert i f' fetched. induction n as [|n IH]; simpl; intros i f' fetched H; [discriminate|].
  destruct (retry_loop get url p (S i) n f) as [[ok g] l] eqn:E.
  assert (Hr : ok = true -> exists_path p g = true) by (intros ->; eapply IH; exact E).
  destruct (get i) as [status text|]; [destruct (Z.eqb status 200)|];
    inversion H; subst; unfold exists_path in *; auto using mem_set.
Qed.

Definition squad : dataset_node :=
  mk_dataset "SQuAD" "https://paperswithcode.com/dataset/squad" "Question Answering"
             "Question Answering" "Natural Language Processing" false.

Definition squad_hf_url : string := "https://huggingface.co/datasets/squad".

(** C4 (amended).  The existence of the destination file is the only
    signal the Page Store fetch consults.  When the file exists, both
    [save_dataset_page] and [download_dataset_page] return success with no
    network fetch and the store unchanged, whatever the remote returns.
    Once a call has returned success, the file exists, so a second call for
    the same destination does no fetch and does not rewrite the file. *)
Theorem page_store_existence_short_circuit :
  (forall (dl : string -> option string) d f,
     exists_path (dataset_path d) f = true -> save_dataset_page dl d f = (true, f, [])) /\
  (forall (dl dl' : string -> option string) d f f' fetched,
     save_dataset_page dl d f = (true, f', fetched) ->
     save_dataset_page dl' d f' = (true, f', [])) /\
  (forall get name url f,
     exists_path (hf_file_path name) f = true ->
     download_dataset_page get (name, url) f = (true, f, [])) /\
  (forall get get' name url f f' fetched,
     download_dataset_page get (name, url) f = (true, f', fetched) ->
     download_dataset_page get' (name, url) f' = (true, f', [])).
Proof.
  split; [exact save_exists|]. split.
  { intros dl dl' d f f' fetched H. apply save_exists. eapply save_success_stored; exact H. }
  split; [exact hf_exists|].
  intros get get' name url f f' fetched H. apply hf_exists.
  unfold download_dataset_page in H.
  destruct (exists_path (hf_file_path name) f) eqn:E.
  - inversion H; subst; exact E.
  - eapply retry_loop_success_stored; exact H.
Qed.

(** C4 (counterexample).  A first call whose download fails (a 404 or a
    request error for [save_dataset_page], three non-200 responses for
    [download_dataset_page]) leaves no file, and the second call for the
    same destination fetches over the network again: network I/O is not
    confined to the first call. *)
Lemma failed_first_fetch_refetched :
  save_dataset_page (fun _ => None) squad [] = (false, [], [d_url squad]) /\
  snd (save_dataset_page (fun _ => Some "<html>v2</html>") squad []) = [d_url squad] /\
  download_dataset_page (fun _ => Response 503 "") ("squad", squad_hf_url) []
    = (false, [], [squad_hf_url; squad_hf_url; squad_hf_url]) /\
  snd (download_dataset_page (fun _ => Response 200 "<html>v2</html>") ("squad", squad_hf_url) [])
    = [squad_hf_url].
Proof. repeat split; vm_compute; reflexivity. Qed.

End PageStoreFacts.


(* ------------------------------------------------------------------ *)
Module CrawlFacts.
Import ListUtil Frontier Crawl.
Local Open Scope list_scope.

Lemma str_mem_false x l : str_mem x l = false -> ~ In x l.
Proof.
  unfold str_mem. intros H Hin.
  assert (existsb (String.eqb x) l = true) as H'
    by (apply existsb_exists; exists x; split; [exact Hin | apply String.eqb_refl]).
  congruence.
Qed.

Lemma str_mem_true x l : str_mem x l = true -> In x l.
Proof.
  unfold str_mem. intros H. apply existsb_exists in H as [y [Hy E]].
  apply String.eqb_eq in E. now subst.
Qed.





(** ** A URL in the ledger at a level is not fetched at that level *)






Section Loop.
Variable download_page : string -> option string.
Variable subtasks_of : area_node -> string -> list subtask_node.
Variable datasets_of : task_node -> string -> list dataset_node.
Variable lv : level.
Variable X : string.





End Loop.

(** ** An area absent from the ledger is fetched *)








Section Areas.
Variable download_page : string -> option string.
Variable subtasks_of : area_node -> string -> list subtask_node.
Variable datasets_of : task_node -> string -> list dataset_node.
Variable L0 : ledger.








End Areas.





End CrawlFacts.


(* ------------------------------------------------------------------ *)
Module ExtractionFacts.
Import Extraction.
Local Open Scope list_scope.





Lemma get_blank (fields : list string) k :
  In k fields -> PyDict.get (map (fun f => (f, "")) fields) k = Some "".
Proof.
  induction fields as [|f fields IH]; simpl; [tauto|]. intros Hk.
  destruct (String.eqb k f) eqn:E; [reflexivity|].
  destruct Hk as [<-|Hk]; [now rewrite String.eqb_refl in E|auto].
Qed.

Lemma get_initial_data name k :
  In k Tabular.BENCHMARK_FIELDS -> k <> "benchmark_name" -> k <> "dataset_link" ->
  PyDict.get (initial_data name) k = Some "".
Proof.
  intros Hk H1 H2. unfold initial_data. rewrite !PyDictFacts.get_set.
  apply String.eqb_neq in H1, H2. rewrite H1, H2. now apply get_blank.
Qed.










End ExtractionFacts.


(* ------------------------------------------------------------------ *)
Module PwcUrlFacts.
Import PwcUrl.

Definition meta_og (content : string) : PyDict.dict string :=
  [("property", "og:url"); ("content", content)].

Definition mnist_pwc_page : page :=
  mk_page [[("charset", "utf-8")]; meta_og " https://paperswithcode.com/dataset/mnist"]
          [mk_link_tag ["canonical"] (Some "https://paperswithcode.com/dataset/mnist-v2")]
          [] [Some "/dataset/mnist-old"] (Some "MNIST Dataset | Papers With Code").

(** On a page whose Open-Graph URL and canonical link differ, the
    Open-Graph value (stripped) is the result. *)
Example og_beats_canonical :
  extract_pwc_url mnist_pwc_page "html/pwc_mnist.html"
  = "https://paperswithcode.com/dataset/mnist".
Proof. vm_compute. reflexivity. Qed.

(** Without Open-Graph meta and canonical link, the later strategies apply in
    turn: here the dataset anchor. *)
Example anchor_when_no_meta :
  extract_pwc_url (mk_page [] [] [Some "/area/computer-vision"] [None; Some "/dataset/mnist"]
                           (Some "MNIST Dataset | Papers With Code")) "html/pwc_mnist.html"
  = "https://paperswithcode.com/dataset/mnist".
Proof. vm_compute. reflexivity. Qed.

Example title_slug :
  title_slug_url (Some "Speech  Commands Dataset | Papers With Code")
  = Some "https://paperswithcode.com/dataset/speech-commands".
Proof. vm_compute. reflexivity. Qed.

(** C7.  [extract_pwc_url] returns the value of the first strategy, in the
    order Open-Graph URL meta tag, canonical link tag, breadcrumb link
    containing "/dataset/", any anchor containing "/dataset/", slug of the
    title, slug of the file name, that produces a value (and "" when none
    does), so a strategy is consulted only when all earlier ones produced no
    value.  In particular, whenever the page has an Open-Graph URL meta tag
    with a non-empty content, the result is that value (the content of the
    first such tag, stripped of surrounding whitespace), whatever the
    canonical link tag says. *)
Theorem pwc_url_cascade_order :
  (forall p file_path, extract_pwc_url p file_path = cascade p file_path) /\
  (forall p file_path v, og_loop (metas p) = Some v -> extract_pwc_url p file_path = v).
Proof.
  split.
  - intros p file_path. unfold extract_pwc_url, cascade. cbn [map strategies first_value].
    unfold og_strategy, canonical_strategy, breadcrumb_strategy, anchor_strategy,
      title_strategy, filename_strategy.
    destruct (og_loop (metas p)); [reflexivity|].
    destruct (find_canonical (link_tags p)) as [l|]; [destruct (truthy (href l))|];
      cbn [first_value]; try reflexivity;
    destruct (breadcrumb_loop (breadcrumb_hrefs p)); try reflexivity;
    destruct (anchor_loop (dataset_anchors (anchor_hrefs p))); try reflexivity;
    destruct (title_slug_url (title p)); try reflexivity;
    destruct (file_slug_url file_path); reflexivity.
  - intros p file_path v H. unfold extract_pwc_url. now rewrite H.
Qed.

End PwcUrlFacts.


(* ------------------------------------------------------------------ *)
Module FieldExtractFacts.
Import PyStr Regex FieldExtract.





















End FieldExtractFacts.

(* ================================================================== *)
Module TextCleanFacts.
Import PyStr TextClean.

Lemma str_app_assoc (a b c : string) : (a ++ b) ++ c = a ++ (b ++ c).
Proof. induction a as [|x a IH]; simpl; [reflexivity|now rewrite IH]. Qed.

Lemma str_app_nil (a : string) : a ++ "" = a.
Proof. induction a as [|x a IH]; simpl; [reflexivity|now rewrite IH]. Qed.

Lemma startswith_app (p a b : string) :
  startswith p a = true -> startswith p (a ++ b) = true.
Proof.
  revert a; induction p as [|x p IH]; intros [|y a] H; simpl in *; auto; try discriminate.
  apply andb_true_iff in H as [H1 H2]. rewrite H1. simpl. auto.
Qed.

Lemma all_chars_app (p : ascii -> bool) (a b : string) :
  all_chars p (a ++ b) = all_chars p a && all_chars p b.
Proof. induction a as [|x a IH]; simpl; [reflexivity|now rewrite IH, andb_assoc]. Qed.

Lemma nds_app_r (a b : string) :
  no_double_space (a ++ b) = true -> no_double_space b = true.
Proof.
  induction a as [|x a IH]; simpl; auto.
  intros H. apply andb_true_iff in H as [_ H]. auto.
Qed.

Lemma nds_app_l (a b : string) :
  no_double_space (a ++ b) = true -> no_double_space a = true.
Proof.
  induction a as [|x a IH]; [reflexivity|].
  cbn [no_double_space String.append].
  intros H. apply andb_true_iff in H as [H1 H2].
  rewrite (IH H2), andb_true_r.
  destruct (ascii_eqb x " "%char); [|reflexivity].
  cbn [negb orb] in H1 |- *.
  destruct (startswith " " a) eqn:E; [|reflexivity].
  rewrite (startswith_app _ _ b E) in H1. discriminate.
Qed.

Lemma rev_str_acc (s acc : string) : rev_str s acc = rev_str s "" ++ acc.
Proof.
  revert acc; induction s as [|c s IH]; intros acc; simpl; [reflexivity|].
  rewrite IH, (IH (String c "")), str_app_assoc. reflexivity.
Qed.

Lemma rev_str_app (a b : string) :
  rev_str (a ++ b) "" = rev_str b "" ++ rev_str a "".
Proof.
  induction a as [|c a IH]; simpl.
  - now rewrite str_app_nil.
  - rewrite (rev_str_acc (a ++ b) (String c "")), (rev_str_acc a (String c "")), IH,
      str_app_assoc. reflexivity.
Qed.

Lemma rev_str_involutive (s : string) : rev_str (rev_str s "") "" = s.
Proof.
  induction s as [|c s IH]; simpl; [reflexivity|].
  rewrite (rev_str_acc s (String c "")), rev_str_app, IH. reflexivity.
Qed.

Lemma rev_str_snoc (x : string) (c : ascii) :
  rev_str (x ++ String c "") "" = String c (rev_str x "").
Proof. rewrite rev_str_app. reflexivity. Qed.

Lemma lstrip_split (s : string) :
  exists p, s = p ++ lstrip s /\ all_chars is_space p = true.
Proof.
  induction s as [|c s IH]; simpl.
  - exists ""; auto.
  - destruct (is_space c) eqn:E.
    + destruct IH as [p [H1 H2]]. exists (String c p). simpl. rewrite E, H2. split; [congruence|auto].
    + exists "". auto.
Qed.

Lemma lstrip_head (s : string) :
  match lstrip s with String c _ => is_space c = false | EmptyString => True end.
Proof.
  induction s as [|c s IH]; simpl; auto.
  destruct (is_space c) eqn:E; auto.
Qed.

Lemma rstrip_split (s : string) : exists q, s = rstrip s ++ q.
Proof.
  destruct (lstrip_split (rev_str s "")) as [p [H _]].
  exists (rev_str p "").
  unfold rstrip. rewrite <- rev_str_app, <- H, rev_str_involutive. reflexivity.
Qed.

Lemma rstrip_last (s : string) :
  rstrip s = "" \/ exists x c, rstrip s = x ++ String c "" /\ is_space c = false.
Proof.
  unfold rstrip. pose proof (lstrip_head (rev_str s "")) as H.
  destruct (lstrip (rev_str s "")) as [|c y]; simpl; [left; reflexivity|].
  right. exists (rev_str y ""), c. split; [apply rev_str_acc|exact H].
Qed.

Lemma substring_app (x y : string) :
  substring (String.length x) 1 (x ++ y) = substring 0 1 y.
Proof. induction x as [|c x IH]; simpl; auto. Qed.

Lemma endswith_snoc (x : string) (c : ascii) :
  endswith " " (x ++ String c "") = ascii_eqb c " "%char.
Proof.
  unfold endswith. rewrite PyStrFacts.length_append. cbn [String.length].
  replace (String.length x + 1 - 1) with (String.length x) by lia.
  rewrite substring_app.
  replace (Nat.leb 1 (String.length x + 1)) with true by (symmetry; apply Nat.leb_le; lia).
  rewrite andb_true_l. change (substring 0 1 (String c "")) with (String c "").
  cbn [String.eqb]. unfold ascii_eqb. destruct (Ascii.eqb c " "%char); reflexivity.
Qed.

Lemma space_is_space : is_space " "%char = true.
Proof. reflexivity. Qed.

(** The output of [re.sub(r'\s+', ' ', s)]. *)
Lemma collapse_ws_go_shape (prev : bool) (s : string) :
  plain_space_only (collapse_ws_go prev s) = true
  /\ no_double_space (collapse_ws_go prev s) = true
  /\ (prev = true -> startswith " " (collapse_ws_go prev s) = false).
Proof.
  revert prev; induction s as [|c s IH]; intros prev; cbn [collapse_ws_go].
  - repeat split; reflexivity.
  - destruct (is_space c) eqn:E.
    + destruct prev.
      * apply IH.
      * destruct (IH true) as [H1 [H2 H3]].
        unfold plain_space_only in *. cbn [all_chars no_double_space].
        rewrite H1, H2, (H3 eq_refl).
        split; [reflexivity|split; [reflexivity|discriminate]].
    + destruct (IH false) as [H1 [H2 _]].
      assert (Hc : Ascii.eqb c " "%char = false).
      { destruct (Ascii.eqb c " "%char) eqn:F; auto.
        apply Ascii.eqb_eq in F; subst. discriminate. }
      unfold plain_space_only in *. cbn [all_chars no_double_space].
      rewrite E, H1, H2. unfold ascii_eqb. rewrite Hc.
      split; [reflexivity|split; [reflexivity|]].
      intros _. cbn [startswith]. unfold ascii_eqb. now rewrite Ascii.eqb_sym, Hc.
Qed.

Lemma strip_shape (t : string) :
  plain_space_only t = true -> no_double_space t = true ->
  normalized (strip t) = true.
Proof.
  intros H1 H2. unfold strip.
  destruct (lstrip_split t) as [p [Ht _]].
  pose proof (lstrip_head t) as Hh.
  remember (lstrip t) as l eqn:El.
  destruct (rstrip_split l) as [q Hl].
  pose proof (rstrip_last l) as Hlast.
  remember (rstrip l) as r eqn:Er.
  assert (A1 : plain_space_only r = true).
  { unfold plain_space_only in *. rewrite Ht, all_chars_app in H1.
    apply andb_true_iff in H1 as [_ H1]. rewrite Hl, all_chars_app in H1.
    apply andb_true_iff in H1 as [H1 _]. exact H1. }
  assert (A2 : no_double_space r = true).
  { rewrite Ht in H2. apply nds_app_r in H2. rewrite Hl in H2. eapply nds_app_l; eauto. }
  assert (A3 : startswith " " r = false).
  { destruct r as [|c y]; [reflexivity|].
    rewrite Hl in Hh. cbn [String.append] in Hh. cbn [startswith].
    destruct (ascii_eqb " "%char c) eqn:F; [|reflexivity].
    apply Ascii.eqb_eq in F; subst. discriminate. }
  assert (A4 : endswith " " r = false).
  { destruct Hlast as [E|[x [c [E F]]]].
    - rewrite E. reflexivity.
    - rewrite E, endswith_snoc.
      destruct (ascii_eqb c " "%char) eqn:G; auto.
      apply Ascii.eqb_eq in G; subst. discriminate. }
  unfold normalized. rewrite A1, A2, A3, A4. reflexivity.
Qed.

(** Replacing runs of a class that does not occur changes nothing. *)
Lemma replace_runs_go_id (p : ascii -> bool) (prev : bool) (s : string) :
  all_chars (fun c => negb (p c)) s = true -> replace_runs_go p prev s = s.
Proof.
  revert prev; induction s as [|c s IH]; intros prev H; simpl in *; auto.
  apply andb_true_iff in H as [H1 H2]. destruct (p c); [discriminate|].
  rewrite IH; auto.
Qed.

Lemma collapse_ws_go_id (prev : bool) (s : string) :
  plain_space_only s = true -> no_double_space s = true ->
  (prev = true -> startswith " " s = false) ->
  collapse_ws_go prev s = s.
Proof.
  revert prev; induction s as [|c s IH]; intros prev H1 H2 H3; [reflexivity|].
  cbn [collapse_ws_go].
  unfold plain_space_only in H1; cbn [all_chars] in H1. cbn [no_double_space] in H2.
  apply andb_true_iff in H1 as [Hc H1]. apply andb_true_iff in H2 as [Hd H2].
  assert (IHs : forall b, (b = true -> startswith " " s = false) -> collapse_ws_go b s = s)
    by (intros; apply IH; auto).
  destruct (Ascii.eqb c " "%char) eqn:E.
  - apply Ascii.eqb_eq in E; subst. change (is_space " "%char) with true. cbn iota.
    destruct prev; [specialize (H3 eq_refl); discriminate|].
    change (ascii_eqb " "%char " "%char) with true in Hd. cbn [negb orb] in Hd.
    apply negb_true_iff in Hd. rewrite IHs; auto.
  - unfold ascii_eqb in Hc. rewrite E, orb_false_r in Hc. apply negb_true_iff in Hc.
    rewrite Hc, IHs; auto. discriminate.
Qed.

Lemma snoc_or_empty (s : string) : s = "" \/ exists x c, s = x ++ String c "".
Proof.
  induction s as [|c s IH]; [left; reflexivity|right].
  destruct IH as [->|[x [d ->]]].
  - exists "", c. reflexivity.
  - exists (String c x), d. reflexivity.
Qed.

Lemma normalized_strip_id (s : string) : normalized s = true -> strip s = s.
Proof.
  unfold normalized, plain_space_only. intros H.
  apply andb_true_iff in H as [H H4]. apply andb_true_iff in H as [H H3].
  apply andb_true_iff in H as [H1 _].
  apply negb_true_iff in H3, H4.
  assert (L : lstrip s = s).
  { destruct s as [|c y]; [reflexivity|]. cbn [lstrip].
    cbn [all_chars] in H1. apply andb_true_iff in H1 as [Hc _].
    destruct (is_space c) eqn:E; [|reflexivity].
    cbn [negb orb] in Hc. unfold ascii_eqb in Hc. apply Ascii.eqb_eq in Hc. subst.
    discriminate. }
  unfold strip. rewrite L. unfold rstrip.
  destruct (snoc_or_empty s) as [->|[x [c ->]]]; [reflexivity|].
  rewrite rev_str_snoc. rewrite endswith_snoc in H4.
  rewrite all_chars_app in H1. apply andb_true_iff in H1 as [_ H1].
  cbn [all_chars] in H1. rewrite andb_true_r in H1. cbn [lstrip].
  destruct (is_space c) eqn:E.
  - cbn [negb orb] in H1. rewrite H1 in H4. discriminate.
  - rewrite <- rev_str_snoc, rev_str_involutive. reflexivity.
Qed.

(** [clean_text] returns text without tabs, newlines, carriage returns,
    vertical tabs or form feeds, without two adjacent spaces and without a
    leading or trailing space. *)
Theorem clean_text_normalized (s : string) : normalized (clean_text s) = true.
Proof.
  unfold clean_text. destruct (String.eqb s "") ; [reflexivity|].
  destruct (collapse_ws_go_shape false (replace_runs is_nl_tab_cr s)) as [H1 [H2 _]].
  apply strip_shape; assumption.
Qed.

Lemma plain_space_no_nl (s : string) :
  plain_space_only s = true -> all_chars (fun c => negb (is_nl_tab_cr c)) s = true.
Proof.
  unfold plain_space_only. induction s as [|c s IH]; [reflexivity|].
  cbn [all_chars]. intros H. apply andb_true_iff in H as [Hc H].
  rewrite (IH H), andb_true_r.
  unfold is_nl_tab_cr. unfold is_space, in_range in Hc.
  destruct (ascii_eqb c "010"%char) eqn:A;
    [unfold ascii_eqb in A; apply Ascii.eqb_eq in A; subst; discriminate|].
  destruct (ascii_eqb c "009"%char) eqn:B;
    [unfold ascii_eqb in B; apply Ascii.eqb_eq in B; subst; discriminate|].
  destruct (ascii_eqb c "013"%char) eqn:C;
    [unfold ascii_eqb in C; apply Ascii.eqb_eq in C; subst; discriminate|].
  reflexivity.
Qed.

(** A normalized text is a fixed point of [clean_text]. *)
Lemma clean_text_normalized_id (s : string) :
  normalized s = true -> clean_text s = s.
Proof.
  intros H. unfold clean_text.
  destruct (String.eqb s "") eqn:E; [apply String.eqb_eq in E; now subst|].
  pose proof H as H'. unfold normalized in H'.
  apply andb_true_iff in H' as [H' _]. apply andb_true_iff in H' as [H' H3].
  apply andb_true_iff in H' as [H1 H2]. apply negb_true_iff in H3.
  unfold replace_runs. rewrite replace_runs_go_id by (apply plain_space_no_nl; exact H1).
  unfold collapse_ws. rewrite collapse_ws_go_id by (auto; discriminate).
  apply normalized_strip_id; exact H.
Qed.

(** [clean_text] is idempotent. *)
Theorem clean_text_idempotent (s : string) :
  clean_text (clean_text s) = clean_text s.
Proof. apply clean_text_normalized_id, clean_text_normalized. Qed.

End TextCleanFacts.

(* ================================================================== *)
Module RetryFacts.
Import PageStore.
Local Open Scope list_scope.

Lemma retry_loop_spec (get : nat -> attempt) (url path : string) (fuel i : nat) (f : fs) :
  let '(ok, f', fetched) := retry_loop get url path i fuel f in
  fetched = List.repeat url (List.length fetched)
  /\ (ok = true -> exists k text,
        i <= k < i + fuel /\ get k = Response 200 text
        /\ (forall j, i <= j < k -> forall t, get j <> Response 200 t)
        /\ f' = PyDict.set f path text /\ List.length fetched = S (k - i))
  /\ (ok = false -> f' = f /\ List.length fetched = fuel
        /\ forall j, i <= j < i + fuel -> forall t, get j <> Response 200 t).
Proof.
  revert i; induction fuel as [|fuel IH]; intros i; cbn [retry_loop].
  - split; [reflexivity|split; [discriminate|]].
    intros _. split; [reflexivity|split; [reflexivity|]]. intros j Hj. lia.
  - specialize (IH (S i)).
    destruct (retry_loop get url path (S i) fuel f) as [[ok f'] fetched] eqn:E.
    destruct IH as [R [T F]].
    assert (Retry :
      forall s,
        (forall t, get i <> Response 200 t) ->
        ok = true /\ (exists k text, S i <= k < S i + fuel /\ get k = Response 200 text
            /\ (forall j, S i <= j < k -> forall t, get j <> Response 200 t)
            /\ f' = PyDict.set f path text /\ List.length fetched = S (k - S i))
        \/ ok = false /\ f' = f /\ List.length fetched = fuel
            /\ (forall j, S i <= j < S i + fuel -> forall t, get j <> Response 200 t) ->
        s = (ok, f', url :: fetched) ->
        let '(ok0, f0, fetched0) := s in
        fetched0 = List.repeat url (List.length fetched0)
        /\ (ok0 = true -> exists k text,
              i <= k < i + S fuel /\ get k = Response 200 text
              /\ (forall j, i <= j < k -> forall t, get j <> Response 200 t)
              /\ f0 = PyDict.set f path text /\ List.length fetched0 = S (k - i))
        /\ (ok0 = false -> f0 = f /\ List.length fetched0 = S fuel
              /\ forall j, i <= j < i + S fuel -> forall t, get j <> Response 200 t)).
    { intros s Hi Hc ->. cbn [List.length List.repeat]. rewrite R at 1. split; [reflexivity|].
      destruct Hc as [[Hok [k [text [Hk [Hg [Hb [Hf Hl]]]]]]]|[Hok [Hf [Hl Hb]]]]; subst ok.
      - split; [|discriminate]. intros _. exists k, text.
        split; [lia|split; [exact Hg|split; [|split; [exact Hf|lia]]]].
        intros j Hj t. destruct (Nat.eq_dec j i) as [->|Hne]; [apply Hi|apply Hb; lia].
      - split; [discriminate|]. intros _. split; [exact Hf|split; [lia|]].
        intros j Hj t. destruct (Nat.eq_dec j i) as [->|Hne]; [apply Hi|apply Hb; lia]. }
    assert (Hc : ok = true /\ (exists k text, S i <= k < S i + fuel /\ get k = Response 200 text
            /\ (forall j, S i <= j < k -> forall t, get j <> Response 200 t)
            /\ f' = PyDict.set f path text /\ List.length fetched = S (k - S i))
        \/ ok = false /\ f' = f /\ List.length fetched = fuel
            /\ (forall j, S i <= j < S i + fuel -> forall t, get j <> Response 200 t)).
    { destruct ok; [left; auto|right; destruct (F eq_refl) as [? [? ?]]; auto]. }
    destruct (get i) as [status text|] eqn:G.
    + destruct (Z.eqb status 200) eqn:S200.
      * apply Z.eqb_eq in S200. subst status.
        split; [reflexivity|split; [|discriminate]]. intros _. exists i, text.
        split; [lia|split; [exact G|split; [intros j Hj; lia|split; [reflexivity|]]]].
        cbn. lia.
      * apply (Retry (ok, f', url :: fetched)); [|exact Hc|reflexivity].
        intros t Ht. inversion Ht; subst. rewrite Z.eqb_refl in S200. discriminate.
    + apply (Retry (ok, f', url :: fetched)); [|exact Hc|reflexivity].
      intros t Ht. discriminate.
Qed.

(** [download_dataset_page] for a dataset whose file is not yet stored
    requests the dataset URL at most [MAX_RETRIES] times.  It succeeds
    exactly when one of the first [MAX_RETRIES] attempts answers with
    status 200: it then stops after the first such attempt and stores that
    response's text under [huggingface/huggingface_<name>.html].  On failure
    it has made all [MAX_RETRIES] requests and leaves the store unchanged. *)
Theorem download_dataset_page_retries (get : nat -> attempt) (name url : string) (f : fs) :
  exists_path (hf_file_path name) f = false ->
  let '(ok, f', fetched) := download_dataset_page get (name, url) f in
  fetched = List.repeat url (List.length fetched)
  /\ (ok = true <-> exists k text, k < MAX_RETRIES /\ get k = Response 200 text)
  /\ (ok = true -> exists k text,
        k < MAX_RETRIES /\ get k = Response 200 text
        /\ (forall j, j < k -> forall t, get j <> Response 200 t)
        /\ f' = PyDict.set f (hf_file_path name) text /\ List.length fetched = S k)
  /\ (ok = false -> f' = f /\ List.length fetched = MAX_RETRIES).
Proof.
  intros Hx. unfold download_dataset_page. rewrite Hx.
  pose proof (retry_loop_spec get url (hf_file_path name) MAX_RETRIES 0 f) as H.
  destruct (retry_loop get url (hf_file_path name) 0 MAX_RETRIES f) as [[ok f'] fetched].
  destruct H as [R [T F]]. split; [exact R|].
  split; [|split].
  - split.
    + intros Hok. destruct (T Hok) as [k [text [Hk [Hg _]]]]. exists k, text. split; [lia|exact Hg].
    + intros [k [text [Hk Hg]]]. destruct ok; [reflexivity|].
      destruct (F eq_refl) as [_ [_ Hb]]. exfalso. apply (Hb k ltac:(lia) text Hg).
  - intros Hok. destruct (T Hok) as [k [text [Hk [Hg [Hb [Hf Hl]]]]]].
    exists k, text. split; [lia|split; [exact Hg|split; [|split; [exact Hf|lia]]]].
    intros j Hj. apply Hb. lia.
  - intros Hok. destruct (F Hok) as [Hf [Hl _]]. auto.
Qed.

Lemma download_dataset_page_retries_witness :
  exists_path (hf_file_path "squad") [] = false
  /\ let '(ok, f', fetched) :=
       download_dataset_page (fun i => if Nat.eqb i 1 then Response 200 "<html></html>" else Failure)
         ("squad", "https://huggingface.co/datasets/squad") [] in
     fetched = List.repeat "https://huggingface.co/datasets/squad" (List.length fetched)
     /\ (ok = true <-> exists k text, k < MAX_RETRIES
            /\ (if Nat.eqb k 1 then Response 200 "<html></html>" else Failure) = Response 200 text)
     /\ (ok = true -> exists k text,
           k < MAX_RETRIES
           /\ (if Nat.eqb k 1 then Response 200 "<html></html>" else Failure) = Response 200 text
           /\ (forall j, j < k -> forall t,
                 (if Nat.eqb j 1 then Response 200 "<html></html>" else Failure) <> Response 200 t)
           /\ f' = PyDict.set [] (hf_file_path "squad") text /\ List.length fetched = S k)
     /\ (ok = false -> f' = [] /\ List.length fetched = MAX_RETRIES).
Proof.
  split; [reflexivity|].
  apply (download_dataset_page_retries
           (fun i => if Nat.eqb i 1 then Response 200 "<html></html>" else Failure)
           "squad" "https://huggingface.co/datasets/squad" []).
  reflexivity.
Defined.

End RetryFacts.

(* ================================================================== *)
Module CrawlRunFacts.
Import ListUtil Frontier Crawl.
Local Open Scope list_scope.









Section Loop.
Variable download_page : string -> option string.
Variable subtasks_of : area_node -> string -> list subtask_node.
Variable datasets_of : task_node -> string -> list dataset_node.
Variable l0 : ledger.





End Loop.


End CrawlRunFacts.

(* ================================================================== *)
Module HfCatalogFacts.
Import PyStr ListUtil HfCatalog.
Local Open Scope list_scope.

Lemma contains_slash_cons (c : ascii) (s : string) :
  contains "/" (String c s) = ascii_eqb "/"%char c || contains "/" s.
Proof. cbn [contains startswith]. now rewrite andb_true_r. Qed.

Lemma contains_slash_app (a b : string) :
  contains "/" (a ++ b) = contains "/" a || contains "/" b.
Proof.
  induction a as [|c a IH]; [reflexivity|].
  cbn [String.append]. rewrite !contains_slash_cons, IH. apply orb_assoc.
Qed.

Lemma split_on_no_slash (s : string) :
  Forall (fun w => contains "/" w = false) (Url.split_on "/"%char s).
Proof.
  induction s as [|c s IH]; cbn [Url.split_on]; [constructor; [reflexivity|constructor]|].
  destruct (ascii_eqb c "/"%char) eqn:E; [constructor; [reflexivity|exact IH]|].
  assert (Ec : ascii_eqb "/"%char c = false)
    by (unfold ascii_eqb in *; now rewrite Ascii.eqb_sym).
  destruct (Url.split_on "/"%char s) as [|w ws].
  - constructor; [|constructor]. rewrite contains_slash_cons, Ec. reflexivity.
  - inversion IH; subst. constructor; [|assumption].
    rewrite contains_slash_cons, Ec. assumption.
Qed.

Lemma nth_split_no_slash (n : nat) (s : string) :
  contains "/" (nth n (Url.split_on "/"%char s) "") = false.
Proof.
  pose proof (split_on_no_slash s) as H. revert n.
  induction H as [|w ws Hw _ IH]; intros [|n]; cbn; auto.
Qed.

Lemma split_on_no_sep (s : string) :
  contains "/" s = false -> Url.split_on "/"%char s = [s].
Proof.
  induction s as [|c s IH]; [reflexivity|].
  rewrite contains_slash_cons. intros H. apply orb_false_iff in H as [Hc H].
  cbn [Url.split_on]. unfold ascii_eqb in *. rewrite Ascii.eqb_sym, Hc, IH by exact H.
  reflexivity.
Qed.

Lemma split_on_prefix (p r : string) :
  contains "/" p = false ->
  Url.split_on "/"%char (p ++ String "/"%char r) = p :: Url.split_on "/"%char r.
Proof.
  induction p as [|c p IH]; [reflexivity|].
  rewrite contains_slash_cons. intros H. apply orb_false_iff in H as [Hc H].
  cbn [String.append Url.split_on]. unfold ascii_eqb in *. rewrite Ascii.eqb_sym, Hc.
  rewrite IH by exact H. reflexivity.
Qed.

(** A name without a slash gives a page file directly under [huggingface/]. *)
Lemma hf_file_path_split (name : string) :
  contains "/" name = false ->
  Url.split_on "/"%char (PageStore.hf_file_path name)
  = [PageStore.DATASETS_DIR; ("huggingface_" ++ name ++ ".html")%string].
Proof.
  intros H. unfold PageStore.hf_file_path, PageStore.DATASETS_DIR.
  change ("/huggingface_" ++ name ++ ".html")%string with
         (String "/"%char ("huggingface_" ++ name ++ ".html")%string).
  rewrite split_on_prefix by reflexivity.
  rewrite split_on_no_sep; [reflexivity|].
  rewrite !contains_slash_app, H. reflexivity.
Qed.

Definition good_entry (e : string * string) : Prop :=
  fst e <> "" /\ contains "/" (fst e) = false.

Lemma filter_map_forall {A B} (f : A -> option B) (P : B -> Prop) (l : list A) :
  (forall x y, f x = Some y -> P y) -> Forall P (filter_map f l).
Proof.
  intros H. induction l as [|x l IH]; cbn; [constructor|].
  destruct (f x) eqn:E; [constructor; [eapply H; exact E|exact IH]|exact IH].
Qed.

Section Catalog.
Variable join : string -> string.

Lemma page_entries_good (p : catalog_page) : Forall good_entry (page_entries join p).
Proof.
  unfold page_entries. destruct (dataset_cards p) as [|c cs].
  - apply filter_map_forall. intros href e. unfold link_entry.
    destruct (_ && _ && _); [|discriminate].
    destruct (negb _ && negb _) eqn:E; [|discriminate].
    intros Hs. inversion Hs; subst. apply andb_true_iff in E as [E _].
    split; [|apply nth_split_no_slash].
    cbn [fst]. intros Hn. rewrite Hn in E. discriminate.
  - apply filter_map_forall. intros [u|] e; [|discriminate]. unfold card_entry.
    destruct (startswith _ _); [|discriminate].
    destruct (negb _) eqn:E; [|discriminate].
    intros Hs. inversion Hs; subst.
    split; [|apply nth_split_no_slash].
    cbn [fst]. intros Hn. rewrite Hn in E. discriminate.
Qed.

Lemma pages_loop_good (fetch : nat -> page_response) (fuel page : nat) acc :
  Forall good_entry acc -> Forall good_entry (pages_loop join fetch page fuel acc).
Proof.
  revert page acc; induction fuel as [|fuel IH]; intros page acc H; cbn [pages_loop]; [exact H|].
  destruct (fetch page) as [status p|]; [|apply IH; exact H].
  destruct (negb (Z.eqb status 200)); [apply IH; exact H|].
  assert (H' : Forall good_entry (acc ++ page_entries join p))
    by (apply Forall_app; split; [exact H|apply page_entries_good]).
  destruct (dataset_cards p), (dataset_link_hrefs p);
    try (destruct (Nat.ltb 1 page)); auto.
Qed.

End Catalog.

(** [get_dataset_list] never returns an empty list (the fallback list
    steps in), and every dataset name it returns is non-empty and has no
    slash, so the page file [download_dataset_page] writes for it lies
    directly in [huggingface/]. *)
Theorem get_dataset_list_names (join : string -> string) (fetch : nat -> page_response)
    (page_count : nat) :
  get_dataset_list join fetch page_count <> []
  /\ forall name url, In (name, url) (get_dataset_list join fetch page_count) ->
       name <> ""
       /\ Url.split_on "/"%char (PageStore.hf_file_path name)
          = [PageStore.DATASETS_DIR; ("huggingface_" ++ name ++ ".html")%string].
Proof.
  assert (G : Forall good_entry (get_dataset_list join fetch page_count)).
  { unfold get_dataset_list.
    pose proof (pages_loop_good join fetch page_count 1 [] (Forall_nil _)) as H.
    destruct (pages_loop join fetch 1 page_count []) as [|e es]; [|exact H].
    apply Forall_forall. intros [n u] Hin. apply in_map_iff in Hin as [m [Hm Hin]].
    inversion Hm; subst. unfold good_entry; cbn [fst].
    revert Hin. vm_compute. intros Hin.
    repeat (destruct Hin as [<-|Hin]; [split; [discriminate|reflexivity]|]). destruct Hin. }
  split.
  - unfold get_dataset_list. destruct (pages_loop join fetch 1 page_count []); discriminate.
  - intros name url Hin. rewrite Forall_forall in G. destruct (G _ Hin) as [H1 H2].
    split; [exact H1|apply hf_file_path_split; exact H2].
Qed.

End HfCatalogFacts.

(* ================================================================== *)
Module ModalitiesFacts.
Import PyStr ListUtil Modalities.
Local Open Scope list_scope.

(** The stages of [special_cases]. *)
Definition pose_stage (task : string) (found : list string) : list string :=
  if isearch "pose estimation" task && negb (str_mem "3D" found) then
    let found := set_add "3D" found in
    if negb (str_mem "Image" found) then set_add "Image" found else found
  else found.

Definition detection_stage (task : string) (found : list string) : list string :=
  if (isearch "detection" task || isearch "segmentation" task)
     && negb (str_mem "Image" found)
  then set_add "Image" found else found.

Definition image_text (found : list string) : list string :=
  let found := if negb (str_mem "Image" found) then set_add "Image" found else found in
  if negb (str_mem "Text" found) then set_add "Text" found else found.

Definition caption_stage (task : string) (found : list string) : list string :=
  if isearch "caption" task then image_text found else found.

Definition vqa_stage (task : string) (found : list string) : list string :=
  if isearch "visual question" task then image_text found else found.

Lemma special_cases_stages (found : list string) (task : string) :
  special_cases found task
  = vqa_stage task (caption_stage task (detection_stage task (pose_stage task found))).
Proof. reflexivity. Qed.

(** The invariant of the set: no duplicates, only known modalities. *)
Definition good_set (found : list string) : Prop := NoDup found /\ incl found MODALITIES.

Lemma set_add_mono (m : string) (found : list string) (x : string) :
  In x found -> In x (set_add m found).
Proof. unfold set_add. destruct (str_mem m found); auto using in_or_app. Qed.

Lemma set_add_self (m : string) (found : list string) : In m (set_add m found).
Proof.
  unfold set_add. destruct (str_mem m found) eqn:E.
  - apply CrawlFacts.str_mem_true, E.
  - apply in_or_app. right. left. reflexivity.
Qed.

Lemma set_add_good (m : string) (found : list string) :
  In m MODALITIES -> good_set found -> good_set (set_add m found).
Proof.
  intros Hm [N I]. unfold set_add. destruct (str_mem m found) eqn:E; [split; assumption|].
  apply CrawlFacts.str_mem_false in E. split.
  - apply NoDup_app; [exact N|constructor; [intros []|constructor]|].
    intros x Hx [<-|[]]. contradiction.
  - intros x Hx. apply in_app_or in Hx as [Hx|[<-|[]]]; auto.
Qed.

(** A step that only adds known modalities. *)
Definition grows (g : list string -> list string) : Prop :=
  forall found, good_set found -> good_set (g found) /\ incl found (g found).

Lemma grows_set_add m : In m MODALITIES -> grows (set_add m).
Proof. intros Hm found H. split; [apply set_add_good; assumption|intros x; apply set_add_mono]. Qed.

Lemma grows_id : grows (fun found => found).
Proof. intros found H. split; [exact H|intros x Hx; exact Hx]. Qed.

Lemma grows_compose g h : grows g -> grows h -> grows (fun found => h (g found)).
Proof.
  intros Hg Hh found H. destruct (Hg found H) as [G1 G2]. destruct (Hh _ G1) as [H1 H2].
  split; [exact H1|intros x Hx; apply H2, G2, Hx].
Qed.

Lemma grows_if (b : list string -> bool) g h :
  grows g -> grows h -> grows (fun found => if b found then g found else h found).
Proof. intros Hg Hh found H. destruct (b found); auto. Qed.

Ltac known := cbn; tauto.

Lemma grows_image_text : grows image_text.
Proof.
  unfold image_text.
  apply (grows_compose (fun found => if negb (str_mem "Image" found) then set_add "Image" found else found)
                       (fun found => if negb (str_mem "Text" found) then set_add "Text" found else found)).
  - apply grows_if; [apply grows_set_add; known|apply grows_id].
  - apply grows_if; [apply grows_set_add; known|apply grows_id].
Qed.

Lemma grows_special task : grows (fun found => special_cases found task).
Proof.
  assert (Hp : grows (pose_stage task)).
  { unfold pose_stage. apply grows_if; [|apply grows_id].
    apply (grows_compose (set_add "3D")
             (fun found => if negb (str_mem "Image" found) then set_add "Image" found else found)).
    - apply grows_set_add; known.
    - apply grows_if; [apply grows_set_add; known|apply grows_id]. }
  assert (Hd : grows (detection_stage task)).
  { unfold detection_stage. apply grows_if; [apply grows_set_add; known|apply grows_id]. }
  assert (Hc : grows (caption_stage task)).
  { unfold caption_stage. destruct (isearch "caption" task); [apply grows_image_text|apply grows_id]. }
  assert (Hv : grows (vqa_stage task)).
  { unfold vqa_stage. destruct (isearch "visual question" task); [apply grows_image_text|apply grows_id]. }
  intros found H. rewrite special_cases_stages.
  exact (grows_compose _ _ (grows_compose _ _ (grows_compose _ _ Hp Hd) Hc) Hv found H).
Qed.

Lemma grows_scan task : grows (fun found => scan_patterns found task).
Proof.
  unfold scan_patterns.
  assert (G : forall mps acc, incl (map fst mps) MODALITIES -> good_set acc ->
            good_set (fold_left (fun found mp =>
               if existsb (fun pattern => word_search pattern task) (snd mp)
               then set_add (fst mp) found else found) mps acc)
            /\ incl acc (fold_left (fun found mp =>
               if existsb (fun pattern => word_search pattern task) (snd mp)
               then set_add (fst mp) found else found) mps acc)).
  { induction mps as [|mp mps IH]; intros acc Hm Ha; cbn [fold_left].
    - split; [exact Ha|intros x Hx; exact Hx].
    - assert (Hm' : In (fst mp) MODALITIES) by (apply Hm; left; reflexivity).
      set (acc' := if existsb (fun pattern => word_search pattern task) (snd mp)
                   then set_add (fst mp) acc else acc).
      assert (A : good_set acc' /\ incl acc acc').
      { unfold acc'. destruct (existsb _ _); [apply grows_set_add; assumption|].
        split; [exact Ha|intros x Hx; exact Hx]. }
      destruct A as [A1 A2].
      destruct (IH acc' (fun x Hx => Hm x (or_intror Hx)) A1) as [B1 B2].
      split; [exact B1|intros x Hx; apply B2, A2, Hx]. }
  intros found H. apply G; [intros x Hx; exact Hx|exact H].
Qed.

Lemma fold_grows (step : list string -> string -> list string) :
  (forall t, grows (fun found => step found t)) ->
  forall tl, grows (fun found => fold_left step tl found).
Proof.
  intros Hs tl. induction tl as [|t tl IH]; cbn [fold_left]; [apply grows_id|].
  exact (grows_compose _ _ (Hs t) IH).
Qed.

Lemma found_good (tasks : string) : good_set (found_modalities tasks).
Proof.
  unfold found_modalities.
  apply (fold_grows _ grows_special).
  apply (fold_grows _ grows_scan).
  split; [constructor|intros x []].
Qed.

(** A modality present after the step for task [t] stays present. *)
Lemma fold_special_keeps (tl : list string) (t x : string) (acc : list string) :
  good_set acc -> In t tl -> (forall found, good_set found -> In x (special_cases found t)) ->
  In x (fold_left special_cases tl acc).
Proof.
  revert acc; induction tl as [|u tl IH]; intros acc Ha Ht Hx; [destruct Ht|].
  cbn [fold_left]. destruct (grows_special u acc Ha) as [G1 _].
  destruct Ht as [<-|Ht]; [|apply IH; assumption].
  apply (fold_grows _ grows_special tl _ G1). apply Hx, Ha.
Qed.

Lemma image_text_has (found : list string) :
  In "Image" (image_text found) /\ In "Text" (image_text found).
Proof.
  unfold image_text.
  set (f1 := if negb (str_mem "Image" found) then set_add "Image" found else found).
  assert (H1 : In "Image" f1).
  { unfold f1. destruct (str_mem "Image" found) eqn:E; cbn [negb].
    - apply CrawlFacts.str_mem_true, E.
    - apply set_add_self. }
  destruct (str_mem "Text" f1) eqn:E; cbn [negb].
  - split; [exact H1|apply CrawlFacts.str_mem_true, E].
  - split; [apply set_add_mono, H1|apply set_add_self].
Qed.

Lemma vqa_stage_mono task found x : In x found -> In x (vqa_stage task found).
Proof.
  unfold vqa_stage, image_text. intros H.
  destruct (isearch _ _); [|exact H].
  destruct (str_mem "Image" found); cbn [negb];
    [destruct (str_mem "Text" found)|destruct (str_mem "Text" (set_add "Image" found))];
    cbn [negb]; auto using set_add_mono.
Qed.

Lemma caption_stage_mono task found x : In x found -> In x (caption_stage task found).
Proof.
  unfold caption_stage, image_text. intros H.
  destruct (isearch _ _); [|exact H].
  destruct (str_mem "Image" found); cbn [negb];
    [destruct (str_mem "Text" found)|destruct (str_mem "Text" (set_add "Image" found))];
    cbn [negb]; auto using set_add_mono.
Qed.

Lemma detection_stage_mono task found x : In x found -> In x (detection_stage task found).
Proof.
  unfold detection_stage. intros H. destruct (_ && _); auto using set_add_mono.
Qed.

Lemma special_caption task found :
  isearch "caption" task = true \/ isearch "visual question" task = true ->
  In "Image" (special_cases found task) /\ In "Text" (special_cases found task).
Proof.
  intros H. rewrite special_cases_stages.
  destruct (isearch "visual question" task) eqn:V.
  - unfold vqa_stage at 1 2. rewrite V. apply image_text_has.
  - destruct H as [H|H]; [|discriminate].
    split; apply vqa_stage_mono; unfold caption_stage; rewrite H; apply image_text_has.
Qed.

Lemma special_detection task found :
  isearch "detection" task = true \/ isearch "segmentation" task = true ->
  In "Image" (special_cases found task).
Proof.
  intros H. rewrite special_cases_stages. apply vqa_stage_mono, caption_stage_mono.
  unfold detection_stage.
  replace (isearch "detection" task || isearch "segmentation" task) with true
    by (destruct H as [-> | ->]; [reflexivity|symmetry; apply orb_true_r]).
  set (f := pose_stage task found).
  destruct (str_mem "Image" f) eqn:E; cbn [negb andb].
  - apply CrawlFacts.str_mem_true, E.
  - apply set_add_self.
Qed.

Lemma special_pose task found :
  isearch "pose estimation" task = true -> In "3D" (special_cases found task).
Proof.
  intros H. rewrite special_cases_stages.
  apply vqa_stage_mono, caption_stage_mono, detection_stage_mono.
  unfold pose_stage. rewrite H. cbn [andb].
  destruct (str_mem "3D" found) eqn:E; cbn [negb].
  - apply CrawlFacts.str_mem_true, E.
  - destruct (str_mem "Image" (set_add "3D" found)); cbn [negb];
      [apply set_add_self|apply set_add_mono, set_add_self].
Qed.

(** Insertion sort. *)
Definition str_le (a b : string) : Prop := String.leb a b = true.
Definition str_lt (a b : string) : Prop := String.ltb a b = true.

Lemma leb_flip (a b : string) : String.leb a b = false -> String.leb b a = true.
Proof. intros H. destruct (String.leb_total a b) as [H'|H']; congruence. Qed.

Lemma insert_perm (x : string) (l : list string) : Permutation (insert x l) (x :: l).
Proof.
  induction l as [|y l IH]; cbn [insert]; [reflexivity|].
  destruct (String.leb x y); [reflexivity|].
  rewrite IH. apply perm_swap.
Qed.

Lemma sort_perm (l : list string) : Permutation (sort l) l.
Proof.
  induction l as [|x l IH]; cbn [sort]; [reflexivity|].
  rewrite insert_perm, IH. reflexivity.
Qed.

Lemma insert_sorted (x : string) (l : list string) :
  Sorted str_le l -> Sorted str_le (insert x l).
Proof.
  induction l as [|y l IH]; intros H; cbn [insert]; [repeat constructor|].
  destruct (String.leb x y) eqn:E; [constructor; [exact H|constructor; exact E]|].
  apply Sorted_inv in H as [H1 H2]. constructor; [apply IH, H1|].
  destruct l as [|z l]; cbn [insert]; [constructor; apply leb_flip, E|].
  apply HdRel_inv in H2.
  destruct (String.leb x z); constructor; [apply leb_flip, E|exact H2].
Qed.

Lemma sort_sorted (l : list string) : Sorted str_le (sort l).
Proof. induction l as [|x l IH]; cbn [sort]; [constructor|apply insert_sorted, IH]. Qed.

Lemma le_neq_lt (a b : string) : String.leb a b = true -> a <> b -> String.ltb a b = true.
Proof.
  unfold String.leb, String.ltb. intros H Hn.
  destruct (String.compare a b) eqn:E; [apply String.compare_eq_iff in E; contradiction|reflexivity|discriminate].
Qed.

Lemma sorted_strict (l : list string) : Sorted str_le l -> NoDup l -> Sorted str_lt l.
Proof.
  induction 1 as [|a l H IH Hd]; intros N; constructor.
  - apply IH. inversion N; assumption.
  - destruct Hd as [|b l' Hab]; constructor.
    apply le_neq_lt; [exact Hab|]. intros ->. inversion N; subst. apply H2. left. reflexivity.
Qed.

(** [infer_modalities_from_tasks] returns the [', ']-join of a list of
    known modality names, strictly sorted (so without repetition), and
    empty for an empty input.  For every task of the comma-separated
    input: a task mentioning "caption" or "visual question" (in any case)
    puts Image and Text in the list, one mentioning "detection" or
    "segmentation" puts Image in it, and one mentioning "pose estimation"
    puts 3D in it. *)
Theorem infer_modalities_shape (tasks : string) :
  exists l, infer_modalities_from_tasks tasks = String.concat ", " l
  /\ Sorted str_lt l /\ incl l MODALITIES
  /\ (tasks = "" -> l = [])
  /\ (tasks <> "" -> forall task, In task (task_list tasks) ->
        (isearch "caption" task = true \/ isearch "visual question" task = true ->
           In "Image" l /\ In "Text" l)
        /\ (isearch "detection" task = true \/ isearch "segmentation" task = true ->
              In "Image" l)
        /\ (isearch "pose estimation" task = true -> In "3D" l)).
Proof.
  destruct (String.eqb tasks "") eqn:E.
  - apply String.eqb_eq in E. subst. exists []. unfold infer_modalities_from_tasks.
    split; [reflexivity|]. split; [constructor|]. split; [intros x []|].
    split; [reflexivity|]. intros H; congruence.
  - exists (sort (found_modalities tasks)).
    unfold infer_modalities_from_tasks. rewrite E.
    destruct (found_good tasks) as [N I].
    pose proof (sort_perm (found_modalities tasks)) as P.
    split; [reflexivity|split; [|split; [|split]]].
    + apply sorted_strict; [apply sort_sorted|].
      apply Permutation_NoDup with (l := found_modalities tasks); [symmetry; exact P|exact N].
    + intros x Hx. apply I. apply (Permutation_in _ P Hx).
    + intros H. subst. discriminate.
    + intros _ task Ht.
      assert (K : forall x, (forall found, good_set found -> In x (special_cases found task)) ->
                            In x (sort (found_modalities tasks))).
      { intros x Hx. apply (Permutation_in _ (Permutation_sym P)).
        unfold found_modalities. apply fold_special_keeps with (t := task); [|exact Ht|exact Hx].
        destruct (fold_grows _ grows_scan (task_list tasks) []) as [G _];
          [split; [constructor|intros y []]|exact G]. }
      split; [|split].
      * intros Hc. split; apply K; intros found _; apply special_caption, Hc.
      * intros Hd. apply K. intros found _. apply special_detection, Hd.
      * intros Hp. apply K. intros found _. apply special_pose, Hp.
Qed.

End ModalitiesFacts.

(* ================================================================== *)
Module CsvProgressFacts.
Import Progress CsvProgress.

(** Whatever the state of the file, [load_progress] returns a value that
    has a length. *)
Theorem csv_load_progress_has_len (f : progress_file) :
  exists n, py_len (load_progress f) = Ok n.
Proof.
  destruct f as [| | |[| | | | |d]]; cbn; try (eexists; reflexivity).
  destruct (PyDict.get_default d "processed_files" (PList [])) as [| | | | |] eqn:E;
    cbn; eexists; reflexivity.
Qed.

End CsvProgressFacts.

(* ================================================================== *)
Module PlacementFacts.
Import PyStr Extraction.

(** The area [extract_datasets] assigns to a record is one of the sixteen
    Papers With Code areas when the record has associated tasks, and is
    empty exactly when it has none; subtask and task are always equal. *)
Theorem derive_placement_area (i : Tabular.pwc_info) :
  let '(area, subtask, task) := derive_placement i in
  subtask = task
  /\ (area = "" <-> Tabular.associated_tasks i = "")
  /\ (Tabular.associated_tasks i <> "" -> In area PWC_AREAS).
Proof.
  unfold derive_placement.
  destruct (String.eqb (Tabular.associated_tasks i) "") eqn:E.
  - apply String.eqb_eq in E. split; [reflexivity|]. split; [tauto|]. intros H; contradiction.
  - apply String.eqb_neq in E.
    set (main_task := strip (hd "" (Url.split_on ","%char (Tabular.associated_tasks i)))).
    set (found := match List.find (fun a => contains (lower a) (lower main_task)) PWC_AREAS with
                  | Some a => a | None => "" end).
    assert (Hf : found = "" \/ In found PWC_AREAS).
    { unfold found. destruct (List.find _ _) eqn:F; [right|left; reflexivity].
      apply find_some in F. apply F. }
    assert (A : In (if negb (String.eqb found "") then found
                     else if contains "Image" (Tabular.modalities i) then "Computer Vision"
                     else if contains "Text" (Tabular.modalities i) then "Natural Language Processing"
                     else if contains "Audio" (Tabular.modalities i) then "Audio"
                     else "Methodology") PWC_AREAS).
    { destruct (String.eqb found "") eqn:G; cbn [negb].
      - destruct (contains "Image" _); [cbn; tauto|].
        destruct (contains "Text" _); [cbn; tauto|].
        destruct (contains "Audio" _); cbn; tauto.
      - destruct Hf as [Hf|Hf]; [apply String.eqb_neq in G; contradiction|exact Hf]. }
    split; [reflexivity|split; [|intros _; exact A]].
    split; [|intros H; contradiction].
    intros H. rewrite H in A. cbn in A. intuition discriminate.
Qed.

End PlacementFacts.

(* ================================================================== *)
Module RegexFacts.
Import PyStr Regex.
Local Open Scope list_scope.

Section Spans.
Variable inp : string.

(** The spans a pattern can match, anchors and the order of alternatives
    left aside. *)
Inductive spans : rx -> nat -> nat -> Prop :=
| SChar (p : ascii -> bool) (pos : nat) (c : ascii) :
    String.get pos inp = Some c -> p c = true -> spans (RChar p) pos (S pos)
| SSeq r1 r2 a b c : spans r1 a b -> spans r2 b c -> spans (RSeq r1 r2) a c
| SAltL r1 r2 a b : spans r1 a b -> spans (RAlt r1 r2) a b
| SAltR r1 r2 a b : spans r2 a b -> spans (RAlt r1 r2) a b
| SStar0 r a : spans (RStar r) a a
| SStarS r a b c : spans r a b -> spans (RStar r) b c -> spans (RStar r) a c
| SLazy0 r a : spans (RLazyStar r) a a
| SLazyS r a b c : spans r a b -> spans (RLazyStar r) b c -> spans (RLazyStar r) a c
| SGroup n r a b : spans r a b -> spans (RGroup n r) a b
| SEps a : spans REps a a
| SStart a : spans RStart a a
| SDollar a : spans RDollar a a
| SEndZ a : spans REndZ a a.

(** Every group [n] of the pattern captures only spans satisfying [Q n]. *)
Fixpoint groups_ok (Q : nat -> nat -> nat -> Prop) (r : rx) : Prop :=
  match r with
  | RGroup n r1 => (forall a b, spans r1 a b -> Q n a b) /\ groups_ok Q r1
  | RSeq r1 r2 | RAlt r1 r2 => groups_ok Q r1 /\ groups_ok Q r2
  | RStar r1 | RLazyStar r1 => groups_ok Q r1
  | _ => True
  end.

(** The groups every match of the pattern captures. *)
Fixpoint must (r : rx) : list nat :=
  match r with
  | RGroup n r1 => n :: must r1
  | RSeq r1 r2 => must r1 ++ must r2
  | _ => []
  end.

Definition caps_ok (Q : nat -> nat -> nat -> Prop) (new : captures) : Prop :=
  forall e, In e new -> Q (fst e) (fst (snd e)) (snd (snd e)).

Lemma caps_ok_app Q l1 l2 : caps_ok Q l1 -> caps_ok Q l2 -> caps_ok Q (l1 ++ l2).
Proof. intros H1 H2 e He. apply in_app_or in He as [He|He]; auto. Qed.

(** Whatever the matcher returns comes from its continuation, called at
    the end of a span of the pattern, with the captures of the groups of
    the pattern pushed in front. *)
Lemma m_sound (Q : nat -> nat -> nat -> Prop) (fuel : nat) :
  forall r pos caps k res, groups_ok Q r -> m inp fuel r pos caps k = Some res ->
  exists p new, spans r pos p /\ caps_ok Q new
    /\ (forall n, In n (must r) -> exists e, In e new /\ fst e = n)
    /\ k p (new ++ caps) = Some res.
Proof.
  induction fuel as [|f IH]; intros r pos caps k res G H; [discriminate|].
  destruct r as [p|r1 r2|r1 r2|r1|r1|n r1| | | |]; cbn [m] in H.
  - destruct (String.get pos inp) as [c|] eqn:E; [|discriminate].
    destruct (p c) eqn:P; [|discriminate].
    exists (S pos), []. split; [econstructor; eauto|].
    split; [intros e []|split; [intros n []|exact H]].
  - destruct G as [G1 G2].
    destruct (IH _ _ _ _ _ G1 H) as (p1 & new1 & S1 & C1 & M1 & K1).
    destruct (IH _ _ _ _ _ G2 K1) as (p2 & new2 & S2 & C2 & M2 & K2).
    exists p2, (new2 ++ new1). split; [econstructor; eauto|].
    split; [apply caps_ok_app; assumption|split; [|rewrite <- app_assoc; exact K2]].
    intros n Hn. cbn [must] in Hn. apply in_app_or in Hn as [Hn|Hn].
    + destruct (M1 n Hn) as [e [He Hf]]. exists e. split; [apply in_or_app; right|]; assumption.
    + destruct (M2 n Hn) as [e [He Hf]]. exists e. split; [apply in_or_app; left|]; assumption.
  - destruct G as [G1 G2].
    destruct (m inp f r1 pos caps k) as [x|] eqn:E1.
    + inversion H; subst.
      destruct (IH _ _ _ _ _ G1 E1) as (p1 & new1 & S1 & C1 & M1 & K1).
      exists p1, new1. split; [apply SAltL; exact S1|]. split; [exact C1|split; [intros n []|exact K1]].
    + destruct (IH _ _ _ _ _ G2 H) as (p1 & new1 & S1 & C1 & M1 & K1).
      exists p1, new1. split; [apply SAltR; exact S1|]. split; [exact C1|split; [intros n []|exact K1]].
  - destruct (m inp f r1 pos caps _) as [x|] eqn:E1.
    + inversion H; subst.
      destruct (IH r1 _ _ _ _ G E1) as (p1 & new1 & S1 & C1 & _ & K1).
      cbv beta in K1. destruct (Nat.eqb p1 pos); [discriminate|].
      destruct (IH (RStar r1) _ _ _ _ G K1) as (p2 & new2 & S2 & C2 & _ & K2).
      exists p2, (new2 ++ new1). split; [econstructor; eauto|].
      split; [apply caps_ok_app; assumption|split; [intros n []|rewrite <- app_assoc; exact K2]].
    + exists pos, []. split; [constructor|]. split; [intros e []|split; [intros n []|exact H]].
  - destruct (k pos caps) as [x|] eqn:E0.
    + inversion H; subst. exists pos, []. split; [constructor|].
      split; [intros e []|split; [intros n []|exact E0]].
    + destruct (IH r1 _ _ _ _ G H) as (p1 & new1 & S1 & C1 & _ & K1).
      cbv beta in K1. destruct (Nat.eqb p1 pos); [discriminate|].
      destruct (IH (RLazyStar r1) _ _ _ _ G K1) as (p2 & new2 & S2 & C2 & _ & K2).
      exists p2, (new2 ++ new1). split; [econstructor; eauto|].
      split; [apply caps_ok_app; assumption|split; [intros n []|rewrite <- app_assoc; exact K2]].
  - destruct G as [Gq G1].
    destruct (IH _ _ _ _ _ G1 H) as (p1 & new1 & S1 & C1 & M1 & K1).
    exists p1, ((n, (pos, p1)) :: new1). split; [constructor; exact S1|].
    split; [|split; [|exact K1]].
    + intros e [<-|He]; [cbn; apply Gq; exact S1|apply C1, He].
    + intros n' [<-|Hn]; [exists (n, (pos, p1)); split; [left|]; reflexivity|].
      destruct (M1 n' Hn) as [e [He Hf]]. exists e. split; [right|]; assumption.
  - exists pos, []. split; [constructor|]. split; [intros e []|split; [intros n []|exact H]].
  - destruct (Nat.eqb pos 0); [|discriminate].
    exists pos, []. split; [constructor|]. split; [intros e []|split; [intros n []|exact H]].
  - destruct (_ || _); [|discriminate].
    exists pos, []. split; [constructor|]. split; [intros e []|split; [intros n []|exact H]].
  - destruct (Nat.eqb pos (String.length inp)); [|discriminate].
    exists pos, []. split; [constructor|]. split; [intros e []|split; [intros n []|exact H]].
Qed.

Lemma search_sound (Q : nat -> nat -> nat -> Prop) (r : rx) (caps : captures) :
  groups_ok Q r -> search r inp = Some caps ->
  exists pos p new, caps = (0, (pos, p)) :: new /\ spans r pos p /\ caps_ok Q new
    /\ (forall n, In n (must r) -> exists e, In e new /\ fst e = n).
Proof.
  intros G. unfold search.
  enough (Hf : forall fuel pos, search_from inp r pos fuel = Some caps ->
    exists pos p new, caps = (0, (pos, p)) :: new /\ spans r pos p /\ caps_ok Q new
      /\ (forall n, In n (must r) -> exists e, In e new /\ fst e = n)) by apply Hf.
  induction fuel as [|fuel IH]; intros pos H; cbn [search_from] in H.
  - destruct (match_at inp r pos) as [c|] eqn:E; [|discriminate]. inversion H; subst.
    unfold match_at in E. destruct (m_sound Q _ _ _ _ _ _ G E) as (p & new & S & C & M & K).
    rewrite app_nil_r in K. injection K as <-. exists pos, p, new. tauto.
  - destruct (match_at inp r pos) as [c|] eqn:E; [|exact (IH _ H)]. inversion H; subst.
    unfold match_at in E. destruct (m_sound Q _ _ _ _ _ _ G E) as (p & new & S & C & M & K).
    rewrite app_nil_r in K. injection K as <-. exists pos, p, new. tauto.
Qed.

(** The characters between two positions satisfy [P]. *)
Definition region (P : ascii -> bool) (a b : nat) : Prop :=
  a <= b /\ forall i, a <= i < b -> exists c, String.get i inp = Some c /\ P c = true.

(** Every character class of the pattern is included in [P]. *)
Fixpoint chars_only (P : ascii -> bool) (r : rx) : Prop :=
  match r with
  | RChar p => forall c, p c = true -> P c = true
  | RSeq r1 r2 | RAlt r1 r2 => chars_only P r1 /\ chars_only P r2
  | RStar r1 | RLazyStar r1 | RGroup _ r1 => chars_only P r1
  | _ => True
  end.

Lemma spans_region (P : ascii -> bool) (r : rx) (a b : nat) :
  spans r a b -> chars_only P r -> region P a b.
Proof.
  induction 1 as [p pos c E Hp|r1 r2 a b c S1 IH1 S2 IH2|r1 r2 a b S1 IH1|r1 r2 a b S1 IH1
                 |r a|r a b c S1 IH1 S2 IH2|r a|r a b c S1 IH1 S2 IH2|n r a b S1 IH1| a | a | a | a];
    cbn [chars_only]; intros Hc;
    try (split; [lia|intros i Hi; lia]).
  - split; [lia|]. intros i Hi. assert (i = pos) by lia. subst. exists c. auto.
  - destruct Hc as [H1 H2]. destruct (IH1 H1) as [L1 R1]. destruct (IH2 H2) as [L2 R2].
    split; [lia|]. intros i Hi. destruct (Nat.lt_ge_cases i b); [apply R1|apply R2]; lia.
  - apply IH1, Hc.
  - apply IH1, Hc.
  - destruct (IH1 Hc) as [L1 R1]. destruct (IH2 Hc) as [L2 R2].
    split; [lia|]. intros i Hi. destruct (Nat.lt_ge_cases i b); [apply R1|apply R2]; lia.
  - destruct (IH1 Hc) as [L1 R1]. destruct (IH2 Hc) as [L2 R2].
    split; [lia|]. intros i Hi. destruct (Nat.lt_ge_cases i b); [apply R1|apply R2]; lia.
  - apply IH1, Hc.
Qed.

Lemma spans_le (r : rx) (a b : nat) : spans r a b -> a <= b.
Proof. induction 1; lia. Qed.

End Spans.

(** The groups of a pattern. *)
Fixpoint no_groups (r : rx) : bool :=
  match r with
  | RGroup _ _ => false
  | RSeq r1 r2 | RAlt r1 r2 => no_groups r1 && no_groups r2
  | RStar r1 | RLazyStar r1 => no_groups r1
  | _ => true
  end.

Lemma no_groups_ok inp Q r : no_groups r = true -> groups_ok inp Q r.
Proof.
  induction r; cbn [no_groups groups_ok]; intros H; try exact I; try discriminate;
    try (apply andb_true_iff in H as [H1 H2]; split; auto); auto.
Qed.

Lemma seq_groups_ok inp Q rs : Forall (groups_ok inp Q) rs -> groups_ok inp Q (seq rs).
Proof.
  induction 1 as [|r rs Hr Hrs IH]; [exact I|].
  destruct rs as [|r' rs']; [exact Hr|]. cbn [seq]. split; [exact Hr|exact IH].
Qed.

End RegexFacts.

(* ================================================================== *)
Module CountFacts.
Import PyStr Regex RegexFacts FieldExtract.
Local Open Scope list_scope.

Definition digit_or_comma (c : ascii) : bool := is_digit c || ascii_eqb c ","%char.

Lemma ascii_eqb_sym (a b : ascii) : ascii_eqb a b = ascii_eqb b a.
Proof.
  unfold ascii_eqb. destruct (Ascii.eqb_spec a b) as [->|N]; [symmetry; apply Ascii.eqb_refl|].
  destruct (Ascii.eqb_spec b a) as [E|_]; [congruence|reflexivity].
Qed.

(** What a count group captures: a digit followed by digits and commas. *)
Definition count_span (inp : string) (n a b : nat) : Prop :=
  n = 1 -> a < b /\ region inp digit_or_comma a b
           /\ exists c, String.get a inp = Some c /\ is_digit c = true.

Lemma count_body_span inp a b :
  spans inp (seq [plus digit; RStar (seq [lit ","%char; plus digit])]) a b ->
  count_span inp 1 a b.
Proof.
  intros H _. cbn [seq plus] in H.
  assert (R : region inp digit_or_comma a b).
  { apply (spans_region inp _ _ _ _ H). cbn [chars_only digit lit].
    unfold digit_or_comma. repeat split; intros c Hc;
      [rewrite Hc; reflexivity|rewrite Hc; reflexivity
      |rewrite ascii_eqb_sym, Hc; apply orb_true_r
      |rewrite Hc; reflexivity|rewrite Hc; reflexivity]. }
  inversion H as [| ? ? ? b1 ? S1 S2 | | | | | | | | | | |]; subst.
  inversion S1 as [| ? ? ? b2 ? S3 S4 | | | | | | | | | | |]; subst.
  inversion S3 as [p pos c E Hp| | | | | | | | | | | |]; subst.
  pose proof (spans_le inp _ _ _ S4). pose proof (spans_le inp _ _ _ S2).
  split; [lia|split; [exact R|exists c; split; assumption]].
Qed.

Lemma count_group_ok inp : groups_ok inp (count_span inp) count_group.
Proof.
  cbn [count_group groups_ok]. split; [apply count_body_span|].
  apply (no_groups_ok inp (count_span inp)). reflexivity.
Qed.

Lemma split_re_ok inp split :
  no_groups split = true -> groups_ok inp (count_span inp) (split_re split).
Proof.
  intros H. unfold split_re. apply seq_groups_ok, Forall_forall.
  intros x Hx. cbn [In] in Hx. repeat destruct Hx as [<- | Hx]; try contradiction;
    first [apply (no_groups_ok inp (count_span inp)); first [exact H | reflexivity] | apply count_group_ok].
Qed.

Lemma all_chars_get (P : ascii -> bool) (s : string) :
  (forall j c, String.get j s = Some c -> P c = true) -> TextClean.all_chars P s = true.
Proof.
  induction s as [|c s IH]; intros H; [reflexivity|]. cbn [TextClean.all_chars].
  rewrite (H 0 c eq_refl). apply IH. intros j d Hj. apply (H (S j)). exact Hj.
Qed.

Lemma remove_comma_digits (s : string) :
  TextClean.all_chars digit_or_comma s = true ->
  TextClean.all_chars is_digit (remove_char ","%char s) = true.
Proof.
  induction s as [|c s IH]; [reflexivity|]. cbn [TextClean.all_chars remove_char].
  intros H. apply andb_true_iff in H as [Hc H].
  destruct (ascii_eqb c ","%char) eqn:E; [apply IH, H|].
  cbn [TextClean.all_chars]. unfold digit_or_comma in Hc. rewrite E, orb_false_r in Hc.
  rewrite Hc. apply IH, H.
Qed.

(** A count a split pattern finds is a non-empty string of digits. *)
Lemma count_of_digits (r : rx) (t v : string) :
  groups_ok t (count_span t) r -> In 1 (must r) ->
  count_of r t = Some v -> v <> "" /\ TextClean.all_chars is_digit v = true.
Proof.
  intros G M H. unfold count_of in H.
  destruct (search r t) as [caps|] eqn:S; [|discriminate]. inversion H; subst v. clear H.
  destruct (search_sound t _ _ _ G S) as (pos & p & new & -> & _ & C & Mn).
  destruct (Mn 1 M) as [e0 [He0 Hf0]].
  unfold group. cbn [List.find fst Nat.eqb].
  destruct (List.find (fun x => Nat.eqb (fst x) 1) new) as [[n [a b]]|] eqn:F.
  - apply find_some in F as [Hin Hn]. cbn [fst] in Hn. apply Nat.eqb_eq in Hn. subst n.
    destruct (C _ Hin eq_refl) as (Hab & [_ R] & c & Ec & Dc). cbn [fst snd] in *.
    set (s := substring a (b - a) t).
    assert (A : TextClean.all_chars digit_or_comma s = true).
    { apply all_chars_get. intros j d Hj. unfold s in Hj.
      destruct (Nat.lt_ge_cases j (b - a)) as [Lt|Ge].
      - rewrite String.substring_correct1 in Hj by exact Lt.
        destruct (R (j + a) ltac:(lia)) as [d' [E' P']]. congruence.
      - rewrite String.substring_correct2 in Hj by exact Ge. discriminate. }
    assert (G0 : String.get 0 s = Some c)
      by (unfold s; rewrite String.substring_correct1 by lia; exact Ec).
    split; [|apply remove_comma_digits, A].
    destruct s as [|c0 s'] eqn:Es; [discriminate|].
    cbn in G0. inversion G0; subst c0. cbn [remove_char].
    destruct (ascii_eqb c ","%char) eqn:E; [|discriminate].
    unfold ascii_eqb in E. apply Ascii.eqb_eq in E. subst c. discriminate.
  - exfalso. apply find_none with (x := e0) in F; [|exact He0].
    rewrite Hf0 in F. discriminate.
Qed.

Lemma counts_ok (t : string) :
  forall r, In r [train_re; val_re; test_re; examples_re] ->
  groups_ok t (count_span t) r /\ In 1 (must r).
Proof.
  intros r Hr.
  destruct Hr as [<-|[<-|[<-|[<-|[]]]]];
    (split; [|vm_compute; tauto]).
  - apply split_re_ok. reflexivity.
  - apply split_re_ok. reflexivity.
  - apply split_re_ok. reflexivity.
  - unfold examples_re. apply seq_groups_ok, Forall_forall.
    intros x Hx. cbn [In] in Hx. repeat destruct Hx as [<- | Hx]; try contradiction;
      first [apply (no_groups_ok t (count_span t)); reflexivity | apply count_group_ok].
Qed.

(** A count field is empty or a non-empty string of digits. *)
Definition count_field (v : string) : Prop :=
  v = "" \/ (v <> "" /\ TextClean.all_chars is_digit v = true).

Definition counts_inv (d : PyDict.dict string) : Prop :=
  forall k, In k ["num_train_examples"; "num_val_examples"; "num_test_examples"] ->
            count_field (PyDict.get_default d k "").

Lemma counts_inv_set_other d k v :
  ~ In k ["num_train_examples"; "num_val_examples"; "num_test_examples"] ->
  counts_inv d -> counts_inv (PyDict.set d k v).
Proof.
  intros Hk H k' Hk'. unfold PyDict.get_default. rewrite PyDictFacts.get_set.
  destruct (String.eqb k' k) eqn:E; [apply String.eqb_eq in E; subst; contradiction|].
  apply H, Hk'.
Qed.

Lemma counts_inv_set_some d k r t :
  In r [train_re; val_re; test_re; examples_re] ->
  counts_inv d -> counts_inv (set_some d k (count_of r t)).
Proof.
  intros Hr H k' Hk'. destruct (count_of r t) as [v|] eqn:E; [|apply H, Hk'].
  cbn [set_some]. unfold PyDict.get_default. rewrite PyDictFacts.get_set.
  destruct (String.eqb k' k); [|apply H, Hk'].
  destruct (counts_ok t r Hr) as [G M]. right. exact (count_of_digits r t v G M E).
Qed.

Lemma counts_inv_from_summary d t : counts_inv d -> counts_inv (from_summary d t).
Proof.
  intros H. unfold from_summary.
  assert (H1 : counts_inv (PyDict.set d "modality" (modality_of t)))
    by (apply counts_inv_set_other; [cbn; intuition discriminate|exact H]).
  assert (H4 : counts_inv
    (set_some (set_some (set_some (PyDict.set d "modality" (modality_of t))
       "num_train_examples" (count_of train_re t))
       "num_val_examples" (count_of val_re t))
       "num_test_examples" (count_of test_re t))).
  { repeat apply counts_inv_set_some; cbn; auto. }
  destruct (_ && _ && _); [|exact H4].
  apply counts_inv_set_some; [cbn; auto|exact H4].
Qed.

(** In the record [extract_dataset_info] builds from a stored Hugging Face
    page of ASCII text, each of [num_train_examples], [num_val_examples]
    and [num_test_examples] is either empty or a non-empty string of the
    digits 0-9 (the thousands separators of the page removed), whether or
    not the extraction raised. *)
Theorem hf_split_counts_digits (dataset_name : string) (p : hf_page) :
  let d := extract_dataset_info dataset_name p in
  count_field (PyDict.get_default d "num_train_examples" "")
  /\ count_field (PyDict.get_default d "num_val_examples" "")
  /\ count_field (PyDict.get_default d "num_test_examples" "").
Proof.
  assert (H0 : counts_inv (Extraction.initial_data dataset_name)).
  { intros k Hk. left. unfold PyDict.get_default.
    rewrite ExtractionFacts.get_initial_data; [reflexivity| |intros ->; cbn in Hk; intuition discriminate
                                                        |intros ->; cbn in Hk; intuition discriminate].
    cbn in Hk |- *. intuition (subst; tauto). }
  assert (M2 : forall d, counts_inv d -> counts_inv (method2 d p)).
  { intros d Hd. unfold method2. destruct (String.eqb _ _); [|exact Hd].
    destruct (summary_heading_sibling p); [|exact Hd].
    apply counts_inv_set_other; [cbn; intuition discriminate|exact Hd]. }
  assert (H : counts_inv (extract_dataset_info dataset_name p)).
  { unfold extract_dataset_info.
    destruct (json_ld_data p) as [ld|]; [|apply M2, H0].
    destruct (ld_description ld) as [[s|]|]; [|exact H0|].
    - assert (H1 : counts_inv (match summary_section s with
                               | Some summary_text =>
                                 from_summary (Extraction.initial_data dataset_name) summary_text
                               | None => Extraction.initial_data dataset_name
                               end))
        by (destruct (summary_section s); [apply counts_inv_from_summary|]; exact H0).
      destruct (ld_rest_raises ld); [exact H1|apply M2, H1].
    - destruct (ld_rest_raises ld); [exact H0|apply M2, H0]. }
  cbv zeta. split; [|split]; apply H; cbn; tauto.
Qed.

End CountFacts.
